(** * PyWebpack: the bundle project of [pywebpack/project.py]

    A shallow embedding of [WebpackBundleProject]: the aggregation of the
    entry points, aliases, copy instructions and npm dependencies of a list
    of bundles into one project description.

    Python dictionaries that are only looked up and compared are finite maps
    ([gmap]); dictionaries that are iterated ([bundle.entry.items()]) are
    association lists in insertion order.  Exceptions are the [Raise] branch
    of [result].  The properties that read or write attributes of the project
    instance and of the caller's config dictionary run in a state monad over
    a small object store. *)

From Stdlib Require Import String Ascii List.
From stdpp Require Import base option list gmap strings fin_maps.

Local Open Scope string_scope.

(** ** [pathlib]: pure POSIX paths, as far as the project uses them *)

Module pathlib.

(** A parsed path: [root] is [""], ["/"] or ["//"], [parts] are the
    segments after the root, without empty and ["."] segments.  [".."]
    segments are kept: pathlib never collapses them. *)
Record Path := mkPath { root : string; parts : list string }.

#[global] Instance Path_eq_dec : EqDecision Path := ltac:(solve_decision).

(** [str.split("/")] *)
Fixpoint split_sep (s : string) : list string :=
  match s with
  | EmptyString => [EmptyString]
  | String c s' =>
      if Ascii.eqb c "/" then EmptyString :: split_sep s'
      else match split_sep s' with
           | seg :: rest => String c seg :: rest
           | [] => [String c EmptyString]
           end
  end.

(** [posixpath.splitroot], without the (always empty) drive. *)
Definition splitroot (p : string) : string * string :=
  match p with
  | String "/" (String "/" (String "/" r)) => ("/", String "/" (String "/" r))
  | String "/" (String "/" r) => ("//", r)
  | String "/" r => ("/", r)
  | _ => ("", p)
  end.

Definition keep_segment (x : string) : bool :=
  negb (String.eqb x "") && negb (String.eqb x ".").

(** [pathlib.Path(s)] for a string [s]. *)
Definition Path_of (s : string) : Path :=
  let '(r, rel) := splitroot s in
  mkPath r (List.filter keep_segment (split_sep rel)).

Definition is_absolute (p : Path) : bool := negb (String.eqb (root p) "").

(** [p.joinpath(q)]: an absolute [q] replaces [p]. *)
Definition joinpath (p q : Path) : Path :=
  if is_absolute q then q else mkPath (root p) (parts p ++ parts q)%list.

(** [p.parent]: a path without segments is its own parent. *)
Definition parent (p : Path) : Path :=
  match parts p with
  | [] => p
  | _ :: _ => mkPath (root p) (removelast (parts p))
  end.

(** [p.is_relative_to(other)]: [other] is [p] or one of its parents, a
    comparison of the segments as they stand. *)
Definition is_relative_to (p other : Path) : bool :=
  bool_decide (root p = root other) &&
  bool_decide (parts other `prefix_of` parts p).

End pathlib.

Import pathlib.

(** ** Values, exceptions and results *)

(** A Python [dict] from strings to strings that the code iterates, in
    insertion order. *)
Abbreviation dict := (list (string * string)).

(** A copy instruction is a dictionary; only its key set and the values
    under ["from"] and ["to"] are read. *)
Abbreviation copy_instruction := (gmap string string).

(** The texts of the [RuntimeError]s the project raises, by their format
    string and the values formatted into it. *)
Inductive runtime_message :=
  | DuplicatedEntry (name prev_filepath prev_bundle_path name' filepath bundle_path : string)
  | DuplicatedAlias (alias prev_path prev_bundle_path alias' path bundle_path : string)
  | InvalidCopyInstruction (copy : copy_instruction)
  | CopyOutOfBounds (copy : copy_instruction) (from_path to_path : Path)
                    (allowed_paths : list Path).

(** The text of a [MergeConflictError]: the message of the conflict found by
    [merge_deps], and the bundle path when [dependencies] has added its
    suffix ["Conflicting dependency found in ..."]. *)
Record merge_message := mkMergeMessage {
  mm_package : string;
  mm_existing : string;
  mm_incoming : string;
  mm_found_in : option string
}.

Inductive exn :=
  | RuntimeError (m : runtime_message)
  | MergeConflictError (m : merge_message)
  | KeyError (key : string)
  | AttributeError (name : string).

Inductive result (A : Type) :=
  | OK (a : A)
  | Raise (e : exn).
Arguments OK {A} a.
Arguments Raise {A} e.

Definition rbind {A B} (r : result A) (k : A → result B) : result B :=
  match r with
  | OK a => k a
  | Raise e => Raise e
  end.

#[global] Instance result_ret : MRet result := @OK.
#[global] Instance result_bind : MBind result := λ A B k r, rbind r k.

Definition is_OK {A} (r : result A) : bool :=
  match r with OK _ => true | Raise _ => false end.

(** [d[key]] *)
Definition getitem {V} (d : gmap string V) (key : string) : result V :=
  match d !! key with
  | Some v => OK v
  | None => Raise (KeyError key)
  end.

(** [d.update(other)] *)
Definition update {V} (d : gmap string V) (other : list (string * V)) : gmap string V :=
  foldl (fun acc kv => <[kv.1 := kv.2]> acc) d other.

(** A value that may be given directly or as a zero-argument callable. *)
Inductive maybe_callable (A : Type) :=
  | Plain (a : A)
  | Callable (f : unit → A).
Arguments Plain {A} a.
Arguments Callable {A} f.

Definition call_if_callable {A} (x : maybe_callable A) : A :=
  match x with
  | Plain a => a
  | Callable f => f tt
  end.

(** A Python [for] loop whose body updates the loop state or raises. *)
Fixpoint for_each {A S} (body : S → A → result S) (s : S) (l : list A) : result S :=
  match l with
  | [] => OK s
  | x :: l' => s' ← body s x; for_each body s' l'
  end.

(** ** [os.path.join] on two strings *)

Definition startswith_sep (s : string) : bool :=
  match s with
  | String c _ => Ascii.eqb c "/"
  | EmptyString => false
  end.

Fixpoint endswith_sep (s : string) : bool :=
  match s with
  | EmptyString => false
  | String c EmptyString => Ascii.eqb c "/"
  | String _ s' => endswith_sep s'
  end.

Definition join (a b : string) : string :=
  if startswith_sep b then b
  else if String.eqb a "" || endswith_sep a then a ++ b
  else a ++ "/" ++ b.

(** ** Manifests and bundles *)

(** A value of a [package.json]-shaped dictionary: a map from package names
    to version ranges, or any other JSON value, which the project never
    inspects. *)
Inductive value (J : Type) :=
  | Deps (d : gmap string string)
  | Json (j : J).
Arguments Deps {J} d.
Arguments Json {J} j.

Abbreviation manifest J := (gmap string (value J)).

Module WebpackBundle.
Record t (J : Type) := mk {
  path : string;
  entry : dict;
  aliases : dict;
  copy : list copy_instruction;
  dependencies : manifest J
}.
Arguments mk {J}.
Arguments path {J}.
Arguments entry {J}.
Arguments aliases {J}.
Arguments copy {J}.
Arguments dependencies {J}.
End WebpackBundle.

(** ** [pywebpack.helpers.merge_deps] *)

Definition dependency_classes : list string :=
  ["dependencies"; "devDependencies"; "peerDependencies"].

(** The map a manifest has under a dependency class; a missing class counts
    as the empty map. *)
Definition get_class {J} (m : manifest J) (k : string) : gmap string string :=
  match m !! k with
  | Some (Deps d) => d
  | _ => ∅
  end.

(** Modelled from the spec: the treatment of one [(packageName, versionRange)]
    by [merge_deps], of which the source has only the calls: insert when
    absent, nothing when present with the same string, a conflict carrying
    the name and both ranges otherwise. *)
Definition merge_package (target : gmap string string) (pkg_version : string * string)
  : result (gmap string string) :=
  let '(pkg, version) := pkg_version in
  match target !! pkg with
  | None => OK (<[pkg := version]> target)
  | Some existing =>
      if decide (existing = version) then OK target
      else Raise (MergeConflictError (mkMergeMessage pkg existing version None))
  end.

(** Modelled from the spec: [merge_deps(deps, bundles_deps)] of
    [pywebpack/helpers.py], which is not among the sources: the three
    dependency classes are merged independently, each replacing the field of
    [deps]; every other field of [deps] is left as it is.  The callers rely
    on [deps] being updated in place ([dependencies] drops the value
    returned); here the updated accumulator is the value returned. *)
Definition merge_deps {J} (deps bundles_deps : manifest J) : result (manifest J) :=
  for_each (fun deps k =>
    merged ← for_each merge_package (get_class deps k)
                      (map_to_list (get_class bundles_deps k));
    OK (<[k := Deps merged]> deps)) deps dependency_classes.

(** ** The object store

    The config dictionary is an object the caller may hold a reference to:
    dictionaries live in a heap, addressed by location.  The project
    instance adds the attributes written by the [cached] decorator. *)

Abbreviation loc := nat.

(** The values of a config dictionary: the three the project writes, and
    whatever JSON the caller put there. *)
Inductive config_value (J : Type) :=
  | ConfigMap (m : gmap string string)
  | ConfigCopy (l : list copy_instruction)
  | ConfigJson (j : J).
Arguments ConfigMap {J} m.
Arguments ConfigCopy {J} l.
Arguments ConfigJson {J} j.

Abbreviation config_dict J := (gmap string (config_value J)).

(** What [config] may be: a dictionary object, or a callable that builds a
    dictionary each time it is called. *)
Inductive config_source (J : Type) :=
  | ConfigRef (l : loc)
  | ConfigCallable (f : unit → config_dict J).
Arguments ConfigRef {J} l.
Arguments ConfigCallable {J} f.

Record store (J : Type) := mkStore {
  heap : gmap loc (config_dict J);
  _entry : option (gmap string string);
  _dependencies : option (manifest J);
  _package_json : option (manifest J)
}.
Arguments mkStore {J}.
Arguments heap {J}.
Arguments _entry {J}.
Arguments _dependencies {J}.
Arguments _package_json {J}.

Definition M (J A : Type) : Type := store J → result A * store J.

#[global] Instance M_ret {J} : MRet (M J) := λ A a s, (OK a, s).
#[global] Instance M_bind {J} : MBind (M J) := λ A B k m s,
  match m s with
  | (OK a, s') => k a s'
  | (Raise e, s') => (Raise e, s')
  end.

Definition lift {J A} (r : result A) : M J A := λ s, (r, s).

Definition set_heap {J} (h : gmap loc (config_dict J)) (s : store J) : store J :=
  mkStore h (_entry s) (_dependencies s) (_package_json s).
Definition set_entry {J} (v : gmap string string) (s : store J) : store J :=
  mkStore (heap s) (Some v) (_dependencies s) (_package_json s).
Definition set_dependencies {J} (v : manifest J) (s : store J) : store J :=
  mkStore (heap s) (_entry s) (Some v) (_package_json s).
Definition set_package_json {J} (v : manifest J) (s : store J) : store J :=
  mkStore (heap s) (_entry s) (_dependencies s) (Some v).

(** A new dictionary object. *)
Definition alloc {J} (d : config_dict J) : M J loc := λ s,
  let l := fresh (dom (heap s)) in
  (OK l, set_heap (<[l := d]> (heap s)) s).

(** [obj.update(items)] on the object at [l]. *)
Definition dict_update {J} (l : loc) (items : list (string * config_value J)) : M J unit :=
  λ s, (OK tt, set_heap (alter (λ d, update d items) l (heap s)) s).

(** Modelled from the spec: the [cached] decorator of [pywebpack/helpers.py],
    which is not among the sources: the property is computed once and its
    value kept in an attribute of the instance; a computation that raises
    stores nothing. *)
Definition cached {J A} (get : store J → option A) (set : A → store J → store J)
    (f : M J A) : M J A := λ s,
  match get s with
  | Some a => (OK a, s)
  | None =>
      match f s with
      | (OK a, s') => (OK a, set a s')
      | (Raise e, s') => (Raise e, s')
      end
  end.

Module WebpackTemplateProject.
(** The [config] property: [None] when no config was given, the result of
    the call when it is callable, the object itself otherwise. *)
Definition config {J} (_config : option (config_source J)) : M J (option loc) :=
  match _config with
  | None => mret None
  | Some (ConfigCallable f) => l ← alloc (f tt); mret (Some l)
  | Some (ConfigRef l) => mret (Some l)
  end.
End WebpackTemplateProject.

(** ** The bundle project *)

Module WebpackBundleProject.

(** The attributes [__init__] sets, with what the collaborators supply:
    [project_path] comes from the npm package, [package_json_source] is the
    parsed source [package.json], [bundles] is [list(self._bundles_iter)]. *)
Record t (J : Type) := mk {
  project_path : string;
  _config : option (config_source J);
  _config_path : string;
  _allowed_copy_paths : maybe_callable (list string);
  bundles : list (WebpackBundle.t J);
  package_json_source : manifest J
}.
Arguments mk {J}.
Arguments project_path {J}.
Arguments _config {J}.
Arguments _config_path {J}.
Arguments _allowed_copy_paths {J}.
Arguments bundles {J}.
Arguments package_json_source {J}.

Section properties.
Context {J : Type}.
(** [Path.is_file], the one question put to the file system. *)
Variable is_file : Path → bool.
Variable self : t J.

Definition config_path : string := join (project_path self) (_config_path self).

Definition allowed_copy_paths : list Path :=
  let _paths := _allowed_copy_paths self in
  let config_path := Path_of config_path in
  List.map (fun p =>
    let allowed_path := Path_of p in
    if negb (is_absolute allowed_path) then joinpath config_path allowed_path
    else allowed_path) (call_if_callable _paths).

(** The loops of [entry] and [aliases] are the same but for the field
    of the bundle they read and the message they raise: [entries] is the
    merged map, [paths] remembers who contributed each name.

    The inner loop body, for one [(name, filepath)] of a bundle. *)
Definition aggregate_item
    (error : string → string → string → string → string → string → runtime_message)
    (entries : gmap string string) (bundle : WebpackBundle.t J)
    (paths : gmap string (string * string)) (item : string * string)
  : result (gmap string (string * string)) :=
  let name := item.1 in
  let filepath := item.2 in
  if decide (is_Some (entries !! name)) then
    prev ← getitem paths name;
    Raise (RuntimeError
             (error name prev.1 prev.2 name filepath (WebpackBundle.path bundle)))
  else OK (<[name := (filepath, WebpackBundle.path bundle)]> paths).

(** The outer loop body, for one bundle. *)
Definition aggregate_bundle
    (error : string → string → string → string → string → string → runtime_message)
    (items : WebpackBundle.t J → dict)
    (st : gmap string string * gmap string (string * string))
    (bundle : WebpackBundle.t J)
  : result (gmap string string * gmap string (string * string)) :=
  paths ← for_each (aggregate_item error st.1 bundle) st.2 (items bundle);
  OK (update st.1 (items bundle), paths).

Definition aggregate
    (error : string → string → string → string → string → string → runtime_message)
    (items : WebpackBundle.t J → dict) : result (gmap string string) :=
  st ← for_each (aggregate_bundle error items) (∅, ∅) (bundles self);
  OK st.1.

Definition entry : result (gmap string string) :=
  aggregate DuplicatedEntry WebpackBundle.entry.

Definition aliases : result (gmap string string) :=
  aggregate DuplicatedAlias WebpackBundle.aliases.

Definition _get_dir_path (p : Path) : Path :=
  if is_file p then parent p else p.

(** The body of the inner loop of [copy], for one instruction. *)
Definition copy_one (config_path : Path) (allowed_paths : list Path)
    (copy_instructions : list copy_instruction) (copy : copy_instruction)
  : result (list copy_instruction) :=
  if bool_decide (dom copy ≠ ({["from"; "to"]} : gset string)) then
    Raise (RuntimeError (InvalidCopyInstruction copy))
  else
    from ← getitem copy "from";
    to ← getitem copy "to";
    let from_path := _get_dir_path (joinpath config_path (Path_of from)) in
    let to_path := _get_dir_path (joinpath config_path (Path_of to)) in
    if bool_decide (allowed_paths ≠ []) then
      let from_path_ok := existsb (is_relative_to from_path) allowed_paths in
      let to_path_ok := existsb (is_relative_to to_path) allowed_paths in
      if negb from_path_ok || negb to_path_ok then
        Raise (RuntimeError (CopyOutOfBounds copy from_path to_path allowed_paths))
      else OK (copy_instructions ++ [copy])%list
    else OK (copy_instructions ++ [copy])%list.

Definition copy : result (list copy_instruction) :=
  let config_path := _get_dir_path (Path_of config_path) in
  let allowed_paths := allowed_copy_paths in
  for_each (fun copy_instructions bundle =>
              for_each (copy_one config_path allowed_paths)
                       copy_instructions (WebpackBundle.copy bundle))
           [] (bundles self).

Definition empty_dependencies : manifest J :=
  <["dependencies" := Deps ∅]> (<["devDependencies" := Deps ∅]>
    (<["peerDependencies" := Deps ∅]> ∅)).

(** The [except] clause of [dependencies]: the conflict is raised again
    with the bundle's path appended to its message. *)
Definition found_in (conflicting : string) {A} (r : result A) : result A :=
  match r with
  | Raise (MergeConflictError e) =>
      Raise (MergeConflictError
               (mkMergeMessage (mm_package e) (mm_existing e) (mm_incoming e)
                               (Some conflicting)))
  | _ => r
  end.

Definition dependencies : result (manifest J) :=
  for_each (fun res b =>
    found_in (WebpackBundle.path b) (merge_deps res (WebpackBundle.dependencies b)))
    empty_dependencies (bundles self).

Definition package_json : result (manifest J) :=
  deps ← dependencies;
  merge_deps (package_json_source self) deps.

(** *** The properties as read on the instance *)

(** [self.entry], [self.dependencies] and [self.package_json] go through
    [cached]. *)
Definition self_entry : M J (gmap string string) :=
  cached _entry set_entry (lift entry).

Definition self_dependencies : M J (manifest J) :=
  cached _dependencies set_dependencies (lift dependencies).

Definition self_package_json : M J (manifest J) :=
  cached _package_json set_package_json
    (deps ← self_dependencies; lift (merge_deps (package_json_source self) deps)).

(** The [config] property: the dictionary of the template project,
    updated in place with the three aggregated values. *)
Definition config : M J loc :=
  config ← WebpackTemplateProject.config (_config self);
  match config with
  | None => lift (Raise (AttributeError "update"))
  | Some config =>
      entry ← self_entry;
      aliases ← lift aliases;
      copy ← lift copy;
      _ ← dict_update config [("entry", ConfigMap entry);
                              ("aliases", ConfigMap aliases);
                              ("copy", ConfigCopy copy)];
      mret config
  end.

End properties.

(** [__init__]: [x or default] replaces [None] and every empty value by
    the default; for [config] the default is a new, empty dictionary. *)
Definition __init__ {J} (project_path : string)
    (bundles : option (list (WebpackBundle.t J)))
    (config : option (config_source J))
    (config_path : option string)
    (package_json_source : manifest J)
    (allowed_copy_paths : option (maybe_callable (list string)))
    (h : gmap loc (config_dict J)) : t J * store J :=
  let _bundles_iter := default [] bundles in
  let _allowed_copy_paths :=
    match allowed_copy_paths with
    | None | Some (Plain []) => Plain []
    | Some paths => paths
    end in
  let _config_path :=
    match config_path with
    | None | Some EmptyString => "config.json"
    | Some p => p
    end in
  let truthy :=
    match config with
    | None => false
    | Some (ConfigCallable _) => true
    | Some (ConfigRef l) =>
        match h !! l with
        | Some d => bool_decide (dom d ≠ ∅)
        | None => false
        end
    end in
  let '(_config, h') :=
    if truthy then (config, h)
    else let l := fresh (dom h) in (Some (ConfigRef l), <[l := ∅]> h) in
  (mk project_path _config _config_path _allowed_copy_paths _bundles_iter
      package_json_source,
   mkStore h' None None None).

End WebpackBundleProject.

(** * Notions used to state the properties *)

(** The map a dictionary denotes. *)
Definition as_map {V} (d : list (string * V)) : gmap string V := update ∅ d.

(** The names a list of bundles contributes, each bundle's names once:
    without duplicates exactly when no two bundles of the list share a
    name. *)
Definition contributed_names {J} (items : WebpackBundle.t J → dict)
    (bundles : list (WebpackBundle.t J)) : list string :=
  bundles ≫= (λ b, remove_dups (items b).*1).

(** The project with another list of bundles. *)
Definition with_bundles {J} (self : WebpackBundleProject.t J)
    (bundles : list (WebpackBundle.t J)) : WebpackBundleProject.t J :=
  WebpackBundleProject.mk
    (WebpackBundleProject.project_path self)
    (WebpackBundleProject._config self)
    (WebpackBundleProject._config_path self)
    (WebpackBundleProject._allowed_copy_paths self)
    bundles
    (WebpackBundleProject.package_json_source self).

(** Two bundles at different places of the list contribute the same name
    to the field [items]. *)
Definition share_name {J} (items : WebpackBundle.t J → dict)
    (bundles : list (WebpackBundle.t J)) : Prop :=
  ∃ i j b1 b2 name,
    i < j ∧ bundles !! i = Some b1 ∧ bundles !! j = Some b2 ∧
    name ∈ (items b1).*1 ∧ name ∈ (items b2).*1.

(** What holds of [(entries, paths)] in [aggregate] after the bundles
    [done]. *)
Definition aggregate_invariant {J} (items : WebpackBundle.t J → dict)
    (done : list (WebpackBundle.t J))
    (st : gmap string string * gmap string (string * string)) : Prop :=
  NoDup (contributed_names items done) ∧
  (∀ name p, st.1 !! name = Some p ↔
             ∃ b, b ∈ done ∧ as_map (items b) !! name = Some p) ∧
  (∀ name, is_Some (st.1 !! name) →
           ∃ b f, b ∈ done ∧ (name, f) ∈ items b ∧
                  st.2 !! name = Some (f, WebpackBundle.path b)).

(** ** Copy instructions *)

Section copy_notions.
Context {J : Type}.
Variable is_file : Path → bool.
Variable self : WebpackBundleProject.t J.

(** All the copy instructions of the project, bundle after bundle, each
    bundle's in the order it declares them. *)
Definition all_copy_instructions : list copy_instruction :=
  WebpackBundleProject.bundles self ≫= WebpackBundle.copy.

(** The directory [copy] checks for a path of an instruction: the path
    joined to the directory of the config file, then its directory part. *)
Definition resolved_dir (p : string) : Path :=
  WebpackBundleProject._get_dir_path is_file
    (joinpath (WebpackBundleProject._get_dir_path is_file
                 (Path_of (WebpackBundleProject.config_path self)))
              (Path_of p)).

Definition well_formed (c : copy_instruction) : Prop :=
  dom c = ({["from"; "to"]} : gset string).

#[global] Instance well_formed_dec c : Decision (well_formed c) :=
  ltac:(unfold well_formed; apply _).

(** Both directories of the instruction are relative to an allowed path,
    by [is_relative_to]. *)
Definition in_sandbox (c : copy_instruction) : Prop :=
  ∃ from to,
    c !! "from" = Some from ∧ c !! "to" = Some to ∧
    (∃ ap, ap ∈ WebpackBundleProject.allowed_copy_paths self ∧
           is_relative_to (resolved_dir from) ap = true) ∧
    (∃ ap, ap ∈ WebpackBundleProject.allowed_copy_paths self ∧
           is_relative_to (resolved_dir to) ap = true).

(** What [copy_one] decides, as a boolean. *)
Definition accepts (c : copy_instruction) : bool :=
  bool_decide (dom c = ({["from"; "to"]} : gset string)) &&
  (bool_decide (WebpackBundleProject.allowed_copy_paths self = []) ||
   match c !! "from", c !! "to" with
   | Some from, Some to =>
       existsb (is_relative_to (resolved_dir from))
               (WebpackBundleProject.allowed_copy_paths self) &&
       existsb (is_relative_to (resolved_dir to))
               (WebpackBundleProject.allowed_copy_paths self)
   | _, _ => false
   end).

(** What [copy_one] raises for an instruction it does not accept. *)
Definition copy_error (c : copy_instruction) : exn :=
  if bool_decide (dom c = ({["from"; "to"]} : gset string)) then
    RuntimeError
      (CopyOutOfBounds c (resolved_dir (default "" (c !! "from")))
                       (resolved_dir (default "" (c !! "to")))
                       (WebpackBundleProject.allowed_copy_paths self))
  else RuntimeError (InvalidCopyInstruction c).
End copy_notions.

(** ** Containment as the specification words it

    [isContainedIn(path, root)]: a prefix test on normalized segments, where
    a [..] segment cancels the segment before it (and stays at the root when
    there is none), so that a path leaving the root through [..] is not
    contained in it. *)

Fixpoint normalize_segments (stack segments : list string) : list string :=
  match segments with
  | [] => rev stack
  | s :: segments' =>
      if String.eqb s ".." then normalize_segments (tail stack) segments'
      else normalize_segments (s :: stack) segments'
  end.

Definition isContainedIn (path root_path : Path) : bool :=
  bool_decide (root path = root root_path) &&
  bool_decide (normalize_segments [] (parts root_path)
                 `prefix_of` normalize_segments [] (parts path)).

Section copy_as_specified.
Context {J : Type}.
Variable is_file : Path → bool.
Variable self : WebpackBundleProject.t J.

Definition in_sandbox_normalized (c : copy_instruction) : Prop :=
  ∃ from to,
    c !! "from" = Some from ∧ c !! "to" = Some to ∧
    (∃ ap, ap ∈ WebpackBundleProject.allowed_copy_paths self ∧
           isContainedIn (resolved_dir is_file self from) ap = true) ∧
    (∃ ap, ap ∈ WebpackBundleProject.allowed_copy_paths self ∧
           isContainedIn (resolved_dir is_file self to) ap = true).

(** With a non-empty set of roots, validation succeeds exactly when every
    instruction is contained, in the normalized sense, in some root. *)
Definition sandbox_as_specified : Prop :=
  WebpackBundleProject.allowed_copy_paths self ≠ [] →
  (is_OK (WebpackBundleProject.copy is_file self) = true ↔
   ∀ c, c ∈ all_copy_instructions self → in_sandbox_normalized c).
End copy_as_specified.

(** ** Concrete projects *)

(** A file system in which [/proj/config.json] is the only file. *)
Definition config_json_is_file (p : Path) : bool :=
  bool_decide (p = Path_of "/proj/config.json").

Definition instruction (from to : string) : copy_instruction :=
  <["from" := from]> (<["to" := to]> ∅).

Definition project_of (allowed : list string) (bundles : list (WebpackBundle.t unit))
    (package_json_source : manifest unit) : WebpackBundleProject.t unit :=
  WebpackBundleProject.mk "/proj" None "config.json" (Plain allowed) bundles
                          package_json_source.

(** A manifest with the given packages under ["dependencies"]. *)
Definition manifest_of (packages : list (string * string)) : manifest unit :=
  <["dependencies" := Deps (list_to_map packages)]> ∅.

(** A bundle that contributes one package and one copy instruction. *)
Definition bundle_of (path pkg version from to : string) : WebpackBundle.t unit :=
  WebpackBundle.mk path [] [] [instruction from to] (manifest_of [(pkg, version)]).

Definition bundle_a : WebpackBundle.t unit :=
  bundle_of "/bundles/a" "lodash" "^4.0.0" "a/src" "a/dst".
Definition bundle_b : WebpackBundle.t unit :=
  bundle_of "/bundles/b" "jquery" "^3.0.0" "b/src" "b/dst".

(** A base manifest with a name, scripts and a package of its own, and two
    bundles that add a package each. *)
Definition named_project : WebpackBundleProject.t unit :=
  project_of [] [bundle_a; bundle_b]
             (<["name" := Json tt]>
                (<["scripts" := Json tt]> (manifest_of [("react", "^18.0.0")]))).

(** The base manifest wants lodash 4, the only bundle lodash 3. *)
Definition lodash_project : WebpackBundleProject.t unit :=
  project_of [] [bundle_of "/bundles/b" "lodash" "^3.0.0" "b/src" "b/dst"]
             (manifest_of [("lodash", "^4.0.0")]).

(** A heap with one dictionary, at location 0. *)
Definition heap_with (d : config_dict unit) : gmap loc (config_dict unit) :=
  <[0%nat := d]> ∅.

(** A project with relative allowed path [static] and an instruction inside
    [/proj/static]. *)
Definition relative_root_project : WebpackBundleProject.t unit :=
  project_of ["static"]
             [WebpackBundle.mk "/bundles/a" [] []
                               [instruction "static/js" "static/css"] ∅] ∅.

(** One bundle whose instruction leaves [/proj/static] through [..]. *)
Definition escaping_bundle : WebpackBundle.t unit :=
  WebpackBundle.mk "/bundles/a" [] []
                   [instruction "static/../../etc" "static/assets"] ∅.

Definition escaping_project : WebpackBundleProject.t unit :=
  project_of ["/proj/static"] [escaping_bundle] ∅.

(** ** Dependencies *)

(** No package has two different ranges in the same class of the two
    manifests. *)
Definition compatible {J} (deps bundles_deps : manifest J) : Prop :=
  ∀ k pkg v1 v2,
    k ∈ dependency_classes →
    get_class deps k !! pkg = Some v1 →
    get_class bundles_deps k !! pkg = Some v2 → v1 = v2.

(** The manifest [deps] with each dependency class replaced by the union of
    the class in both manifests. *)
Definition merged_manifest {J} (deps bundles_deps : manifest J) : manifest J :=
  foldl (λ acc k, <[k := Deps (get_class deps k ∪ get_class bundles_deps k)]> acc)
        deps dependency_classes.

(** The bundles of the list agree on the range of every package, class by
    class. *)
Definition agree {J} (bundles : list (WebpackBundle.t J)) : Prop :=
  ∀ b1 b2 k pkg v1 v2,
    b1 ∈ bundles → b2 ∈ bundles → k ∈ dependency_classes →
    get_class (WebpackBundle.dependencies b1) k !! pkg = Some v1 →
    get_class (WebpackBundle.dependencies b2) k !! pkg = Some v2 → v1 = v2.

(** [res] has the three dependency classes and nothing else, and each class
    holds what the bundles [done] contribute to it. *)
Definition collects {J} (done : list (WebpackBundle.t J)) (res : manifest J) : Prop :=
  (∀ key, key ∉ dependency_classes → res !! key = None) ∧
  (∀ k, k ∈ dependency_classes → res !! k = Some (Deps (get_class res k))) ∧
  (∀ k pkg v, k ∈ dependency_classes →
     get_class res k !! pkg = Some v ↔
     ∃ b, b ∈ done ∧ get_class (WebpackBundle.dependencies b) k !! pkg = Some v).

(** ** Outcomes and descriptors *)

(** Two results are both values, related by [R], or both exceptions. *)
Definition same_outcome {A} (R : A → A → Prop) (r r' : result A) : Prop :=
  match r, r' with
  | OK a, OK a' => R a a'
  | Raise _, Raise _ => True
  | _, _ => False
  end.

Section descriptor.
Context {J : Type}.
Variable is_file : Path → bool.
Variable self : WebpackBundleProject.t J.

(** As the specification has it: a permutation of non-conflicting
    bundles gives the identical descriptor, copy list included. *)
Definition order_independent (bs bs' : list (WebpackBundle.t J)) : Prop :=
  bs ≡ₚ bs' →
  (is_OK (WebpackBundleProject.entry (with_bundles self bs)) = true ∧
   is_OK (WebpackBundleProject.aliases (with_bundles self bs)) = true ∧
   is_OK (WebpackBundleProject.copy is_file (with_bundles self bs)) = true ∧
   is_OK (WebpackBundleProject.dependencies (with_bundles self bs)) = true ∧
   is_OK (WebpackBundleProject.package_json (with_bundles self bs)) = true) →
  WebpackBundleProject.entry (with_bundles self bs')
  = WebpackBundleProject.entry (with_bundles self bs) ∧
  WebpackBundleProject.aliases (with_bundles self bs')
  = WebpackBundleProject.aliases (with_bundles self bs) ∧
  WebpackBundleProject.copy is_file (with_bundles self bs')
  = WebpackBundleProject.copy is_file (with_bundles self bs) ∧
  WebpackBundleProject.dependencies (with_bundles self bs')
  = WebpackBundleProject.dependencies (with_bundles self bs) ∧
  WebpackBundleProject.package_json (with_bundles self bs')
  = WebpackBundleProject.package_json (with_bundles self bs).

(** As the specification has it: every dependency conflict names a
    bundle of the list. *)
Definition conflicts_name_a_bundle : Prop :=
  ∀ m, WebpackBundleProject.package_json self = Raise (MergeConflictError m) →
       ∃ b, b ∈ WebpackBundleProject.bundles self ∧
            mm_found_in m = Some (WebpackBundle.path b).
End descriptor.

(** ** The store *)

Section store_notions.
Context {J : Type}.
Variable is_file : Path → bool.
Variable self : WebpackBundleProject.t J.

(** The attributes written by [cached] hold what the properties compute. *)
Definition cache_ok (s : store J) : Prop :=
  (∀ e, _entry s = Some e → WebpackBundleProject.entry self = OK e) ∧
  (∀ d, _dependencies s = Some d → WebpackBundleProject.dependencies self = OK d) ∧
  (∀ p, _package_json s = Some p → WebpackBundleProject.package_json self = OK p).

(** The three items [config] writes into the dictionary. *)
Definition config_items (entry aliases : gmap string string)
    (copy : list copy_instruction) : list (string * config_value J) :=
  [("entry", ConfigMap entry); ("aliases", ConfigMap aliases);
   ("copy", ConfigCopy copy)].

(** What [config] makes of a dictionary with the contents [d]. *)
Definition updated_config (d : config_dict J) : result (config_dict J) :=
  entry ← WebpackBundleProject.entry self;
  aliases ← WebpackBundleProject.aliases self;
  copy ← WebpackBundleProject.copy is_file self;
  OK (update d (config_items entry aliases copy)).

(** The dictionary a reference denotes. *)
Definition deref (l : loc) : M J (config_dict J) :=
  λ s, (OK (default ∅ (heap s !! l)), s).

(** The project description as a caller reads it from the instance: the
    contents of the dictionary [self.config] returns, which holds the entry
    points, the aliases and the copy instructions, and [self.package_json]. *)
Record descriptor := mkDescriptor {
  descriptor_config : config_dict J;
  descriptor_package_json : manifest J
}.

Definition read_descriptor : M J descriptor :=
  config ← WebpackBundleProject.config is_file self;
  config ← deref config;
  package_json ← WebpackBundleProject.self_package_json self;
  mret (mkDescriptor config package_json).

(** The description read when the config dictionary has the contents
    [d]. *)
Definition descriptor_for (d : config_dict J) : result descriptor :=
  config ← updated_config d;
  package_json ← WebpackBundleProject.package_json self;
  OK (mkDescriptor config package_json).
End store_notions.

(** As the claim has it: with a plain dictionary at [l], [config] returns
    [l] itself and the dictionary at [l] has been updated. *)
Definition config_updates_the_callers_dict {J} (is_file : Path → bool)
    (project_path : string) (bundles : option (list (WebpackBundle.t J)))
    (config_path : option string) (package_json_source : manifest J)
    (allowed_copy_paths : option (maybe_callable (list string)))
    (h : gmap loc (config_dict J)) (l : loc) (d : config_dict J) : Prop :=
  h !! l = Some d →
  ∀ self s0 l' s',
    WebpackBundleProject.__init__ project_path bundles (Some (ConfigRef l))
      config_path package_json_source allowed_copy_paths h = (self, s0) →
    WebpackBundleProject.config is_file self s0 = (OK l', s') →
    l' = l ∧
    ∃ entry aliases copy,
      heap s' !! l = Some (update d (config_items entry aliases copy)).

(** ** Further notions *)

(** The project with another value for [allowed_copy_paths]. *)
Definition with_allowed {J} (self : WebpackBundleProject.t J)
    (paths : maybe_callable (list string)) : WebpackBundleProject.t J :=
  WebpackBundleProject.mk
    (WebpackBundleProject.project_path self)
    (WebpackBundleProject._config self)
    (WebpackBundleProject._config_path self)
    paths
    (WebpackBundleProject.bundles self)
    (WebpackBundleProject.package_json_source self).

(** The directory the copy paths are relative to. *)
Definition config_dir {J} (is_file : Path → bool)
    (self : WebpackBundleProject.t J) : Path :=
  WebpackBundleProject._get_dir_path is_file
    (Path_of (WebpackBundleProject.config_path self)).

(** Every path of [allowed] is, or lies below, a path of [allowed']. *)
Definition covered_by (allowed allowed' : list Path) : Prop :=
  ∀ ap, ap ∈ allowed → ∃ ap', ap' ∈ allowed' ∧ is_relative_to ap ap' = true.

(** Two bundles, the second with a malformed and then an out-of-bounds
    instruction, under the single root [/srv]. *)
Definition offending_project : WebpackBundleProject.t unit :=
  project_of ["/srv"]
    [WebpackBundle.mk "/bundles/a" [] [] [instruction "/srv/a" "/srv/b"] ∅;
     WebpackBundle.mk "/bundles/b" [] []
       [<["extra" := "x"]> (instruction "/srv/c" "/srv/d");
        instruction "/etc" "/srv/e"] ∅] ∅.

(** An instruction whose two paths are relative and have at least one
    segment. *)
Definition relative_instruction (c : copy_instruction) : Prop :=
  well_formed c ∧
  ∀ key p, c !! key = Some p →
           is_absolute (Path_of p) = false ∧ parts (Path_of p) ≠ [].

(** The root [/proj], and a bundle that copies from above it. *)
Definition climbing_project : WebpackBundleProject.t unit :=
  project_of ["/proj"]
    [WebpackBundle.mk "/bundles/a" [] [] [instruction "../../etc/passwd" "static"] ∅]
    ∅.

(** An instruction inside [/srv/static], the only root. *)
Definition nested_project : WebpackBundleProject.t unit :=
  project_of ["/srv/static"]
    [WebpackBundle.mk "/bundles/a" [] []
                      [instruction "/srv/static/js" "/srv/static/css"] ∅] ∅.



(** The caller's heap: one dictionary [{"debug": ...}] at location 0. *)
Definition debug_heap : gmap loc (config_dict unit) :=
  heap_with {["debug" := ConfigJson tt]}.

(** Three bundles: the second repeats [main] after a name of its own, the
    third repeats [app]. *)
Definition blame_project : WebpackBundleProject.t unit :=
  project_of []
    [WebpackBundle.mk "/bundles/a" [("app", "./app.js"); ("main", "./a.js")] [] [] ∅;
     WebpackBundle.mk "/bundles/b" [("extra", "./e.js"); ("main", "./b.js")] [] [] ∅;
     WebpackBundle.mk "/bundles/c" [("app", "./c.js")] [] [] ∅] ∅.

(** * Loops and dictionaries *)

Local Open Scope list_scope.

Section for_each_facts.
Context {A S : Type} (body : S → A → result S).

Lemma for_each_app s l1 l2 :
  for_each body s (l1 ++ l2) = s' ← for_each body s l1; for_each body s' l2.
Proof.
  revert s. induction l1 as [|x l1 IH]; intros s; simpl; [done|].
  destruct (body s x) as [s'|e]; simpl; [apply IH | done].
Qed.

Lemma for_each_cons s x l :
  for_each body s (x :: l) = s' ← body s x; for_each body s' l.
Proof. done. Qed.

(** A loop that raises does so in the body, at some element, after the
    elements before it went through. *)
Lemma for_each_Raise s l e :
  for_each body s l = Raise e →
  ∃ done x rest s', l = done ++ x :: rest ∧
    for_each body s done = OK s' ∧ body s' x = Raise e.
Proof.
  revert s. induction l as [|x l IH]; intros s; simpl; [done|].
  destruct (body s x) as [s'|e'] eqn:Hx; simpl.
  - intros (done & y & rest & s'' & -> & Hdone & Hy)%IH.
    exists (x :: done), y, rest, s''. simpl. rewrite Hx. done.
  - intros [= ->]. by exists [], x, l, s.
Qed.

(** Loop invariants: [Inv done s] holds of the state [s] reached after the
    elements [done]. *)
Lemma for_each_invariant (Inv : list A → S → Prop) s0 l :
  Inv [] s0 →
  (∀ done x s s', Inv done s → body s x = OK s' → Inv (done ++ [x]) s') →
  ∀ done s, done `prefix_of` l → for_each body s0 done = OK s → Inv done s.
Proof.
  intros H0 Hstep done. induction done as [|x done IH] using rev_ind.
  - intros s _ [= <-]. done.
  - intros s Hpre. rewrite for_each_app.
    destruct (for_each body s0 done) as [s1|] eqn:Hd; simpl; [|done].
    destruct (body s1 x) as [s2|] eqn:Hx; simpl; [|done].
    intros [= <-]. eapply Hstep; [|done]. apply IH; [|done].
    etrans; [|done]. by apply prefix_app_r.
Qed.
End for_each_facts.

Lemma update_cons {V} (m : gmap string V) k v d :
  update m ((k, v) :: d) = update (<[k := v]> m) d.
Proof. done. Qed.

(** [update] looks at the new items first, then at the old dictionary. *)
Lemma update_lookup {V} (m : gmap string V) d k :
  update m d !! k = from_option Some (m !! k) (update ∅ d !! k).
Proof.
  revert m. induction d as [|[k0 v0] d IH]; intros m.
  - unfold update. simpl. by rewrite lookup_empty.
  - rewrite !update_cons, (IH (<[k0:=v0]> m)), (IH (<[k0:=v0]> ∅)).
    destruct (update ∅ d !! k); simpl; [done|].
    destruct (decide (k0 = k)) as [->|].
    + by rewrite !lookup_insert_eq.
    + by rewrite !lookup_insert_ne, lookup_empty.
  Qed.

Lemma update_empty_elem {V} (d : list (string * V)) k v :
  update ∅ d !! k = Some v → (k, v) ∈ d.
Proof.
  induction d as [|[k0 v0] d IH]; [unfold update; simpl; by rewrite lookup_empty|].
  rewrite update_cons, update_lookup.
  destruct (update ∅ d !! k) as [v'|] eqn:Hd; simpl.
  - intros [= ->]. right. by apply IH.
  - destruct (decide (k0 = k)) as [->|].
    + rewrite lookup_insert_eq. intros [= ->]. left.
    + by rewrite lookup_insert_ne, lookup_empty.
Qed.

Lemma update_empty_is_Some {V} (d : list (string * V)) k :
  is_Some (update ∅ d !! k) ↔ k ∈ d.*1.
Proof.
  split.
  - intros [v Hv%update_empty_elem]. apply list_elem_of_fmap. by exists (k, v).
  - induction d as [|[k0 v0] d IH]; [by intros ?%elem_of_nil|].
    rewrite update_cons, update_lookup. intros Hk.
    destruct (update ∅ d !! k) as [v'|] eqn:Hd; simpl; [done|].
    apply elem_of_cons in Hk as [->|Hk].
    + simpl. by rewrite lookup_insert_eq.
    + apply IH in Hk as [? ?]. congruence.
Qed.

(** * Entry points and aliases *)

Section aggregate_facts.
Context {J : Type}.
Variable error : string → string → string → string → string → string → runtime_message.
Variable items : WebpackBundle.t J → dict.

Import WebpackBundleProject.

Local Abbreviation Inv := (aggregate_invariant items).

Lemma elem_of_contributed_names bs name :
  name ∈ contributed_names items bs ↔ ∃ b, b ∈ bs ∧ name ∈ (items b).*1.
Proof.
  unfold contributed_names. rewrite list_elem_of_bind.
  split; intros (b & H1 & H2); exists b.
  - rewrite elem_of_remove_dups in H1. by split.
  - rewrite elem_of_remove_dups. by split.
Qed.

Lemma contributed_names_snoc bs b :
  NoDup (contributed_names items (bs ++ [b])) ↔
  NoDup (contributed_names items bs) ∧
  ∀ name, name ∈ (items b).*1 → name ∉ contributed_names items bs.
Proof.
  unfold contributed_names at 1. rewrite bind_app, NoDup_app. simpl.
  rewrite app_nil_r. fold (contributed_names items bs). split.
  - intros (H1 & H2 & _). split; [done|]. intros name Hb Hbs.
    apply (H2 name Hbs). by apply elem_of_remove_dups.
  - intros (H1 & H2). split_and!; [done| |apply NoDup_remove_dups].
    intros name Hbs Hb. rewrite elem_of_remove_dups in Hb. by apply (H2 name).
Qed.

Lemma aggregate_item_free (entries : gmap string string)
    (bundle : WebpackBundle.t J) paths (it : string * string) :
  ¬ is_Some (entries !! it.1) →
  aggregate_item error entries bundle paths it
  = OK (<[it.1 := (it.2, WebpackBundle.path bundle)]> paths).
Proof. intros H. unfold aggregate_item. simpl. by rewrite decide_False. Qed.

Lemma aggregate_item_taken (entries : gmap string string)
    (bundle : WebpackBundle.t J) paths (it : string * string) :
  is_Some (entries !! it.1) →
  aggregate_item error entries bundle paths it
  = Raise (match paths !! it.1 with
           | Some prev =>
               RuntimeError (error it.1 prev.1 prev.2 it.1 it.2
                                   (WebpackBundle.path bundle))
           | None => KeyError it.1
           end).
Proof.
  intros H. unfold aggregate_item, getitem. simpl. rewrite decide_True by done.
  by destruct (paths !! it.1).
Qed.

(** The inner loop: it goes through when no name of the bundle is in
    [entries], and raises at the first name that is. *)
Lemma aggregate_item_loop (entries : gmap string string) (bundle : WebpackBundle.t J)
    (its : dict) (paths : gmap string (string * string)) :
  match for_each (aggregate_item error entries bundle) paths its with
  | OK paths' =>
      (∀ it, it ∈ its → entries !! it.1 = None) ∧
      paths' = update paths ((λ it, (it.1, (it.2, WebpackBundle.path bundle))) <$> its)
  | Raise e =>
      ∃ it, it ∈ its ∧ is_Some (entries !! it.1) ∧
        e = match paths !! it.1 with
            | Some prev =>
                RuntimeError (error it.1 prev.1 prev.2 it.1 it.2
                                    (WebpackBundle.path bundle))
            | None => KeyError it.1
            end
  end.
Proof.
  revert paths. induction its as [|it its IH]; intros paths.
  - simpl. split; [|done]. by intros ? ?%elem_of_nil.
  - rewrite for_each_cons.
    destruct (decide (is_Some (entries !! it.1))) as [Hin|Hout].
    + rewrite aggregate_item_taken by done. simpl.
      exists it. split_and!; [left|done..].
    + rewrite aggregate_item_free by done. simpl.
      specialize (IH (<[it.1:=(it.2, WebpackBundle.path bundle)]> paths)).
      destruct (for_each _ _ its) as [paths'|e].
      * destruct IH as [IH ->]. split; [|done].
        intros it' [->|?]%elem_of_cons; [|by apply IH].
        by apply eq_None_not_Some.
      * destruct IH as (it' & Hit' & Hsome & ->).
        exists it'. split_and!; [by right|done|].
        rewrite lookup_insert_ne; [done|]. intros Heq. by rewrite Heq in Hout.
Qed.

Lemma aggregate_invariant_init : Inv [] (∅, ∅).
Proof.
  split_and!; simpl.
  - constructor.
  - intros name p. rewrite lookup_empty. split; [done|].
    by intros (b & ?%elem_of_nil & _).
  - intros name [? H]. by rewrite lookup_empty in H.
Qed.

Lemma entries_contributed done st name :
  Inv done st →
  is_Some (st.1 !! name) ↔ name ∈ contributed_names items done.
Proof.
  intros (_ & Hentries & _). rewrite elem_of_contributed_names. split.
  - intros [p (b & Hb & Hp)%Hentries]. exists b. split; [done|].
    apply update_empty_is_Some. by exists p.
  - intros (b & Hb & [p Hp]%update_empty_is_Some). exists p.
    apply Hentries. by exists b.
Qed.

Lemma aggregate_bundle_OK done st b st' :
  Inv done st →
  aggregate_bundle error items st b = OK st' →
  Inv (done ++ [b]) st'.
Proof.
  intros Hinv. unfold aggregate_bundle.
  pose proof (aggregate_item_loop st.1 b (items b) st.2) as Hloop.
  destruct (for_each _ _ (items b)) as [paths'|]; simpl; [|done].
  destruct Hloop as [Hfree ->]. intros [= <-].
  assert (∀ name, name ∈ (items b).*1 → st.1 !! name = None) as Hfree'.
  { intros name (it & -> & Hit)%list_elem_of_fmap. by apply Hfree. }
  destruct Hinv as (Hnodup & Hentries & Hpaths).
  split_and!; simpl.
  - apply contributed_names_snoc. split; [done|].
    intros name Hb Hdone.
    eapply (entries_contributed done st name) in Hdone as [p Hp]; [|done].
    rewrite (Hfree' name Hb) in Hp. done.
  - intros name p. rewrite update_lookup. split.
    + destruct (update ∅ (items b) !! name) as [p'|] eqn:Hb; simpl.
      * intros [= ->]. exists b. split; [|done].
        apply elem_of_app. right. left.
      * intros (b' & Hb' & Hp)%Hentries. exists b'. split; [|done].
        apply elem_of_app. by left.
    + intros (b' & [Hb'|Hb']%elem_of_app & Hp);
        [|apply list_elem_of_singleton in Hb' as ->].
      * assert (st.1 !! name = Some p) as Hst by (apply Hentries; by exists b').
        destruct (update ∅ (items b) !! name) as [p'|] eqn:Hb; simpl; [|done].
        assert (name ∈ (items b).*1) as Hin.
        { apply update_empty_is_Some. by exists p'. }
        rewrite (Hfree' name Hin) in Hst. done.
      * unfold as_map in Hp. by rewrite Hp.
  - intros name. rewrite (update_lookup st.1), (update_lookup st.2).
    destruct (update ∅ (items b) !! name) as [p'|] eqn:Hb; simpl.
    + intros _. apply update_empty_elem in Hb as Hb'.
      match goal with
      | |- context [update ∅ ?l !! name] =>
          destruct (update ∅ l !! name) as [[f bp]|] eqn:Hp; simpl
      end.
      * apply update_empty_elem, list_elem_of_fmap in Hp
          as (it & [= -> -> ->] & Hit).
        exists b, it.2. split_and!; [apply elem_of_app; right; left| |done].
        by destruct it.
      * exfalso. apply eq_None_not_Some in Hp. apply Hp.
        apply update_empty_is_Some. rewrite <-list_fmap_compose.
        apply list_elem_of_fmap. by exists (name, p').
    + intros Hsome.
      match goal with
      | |- context [update ∅ ?l !! name] =>
          destruct (update ∅ l !! name) as [[f bp]|] eqn:Hp; simpl
      end.
      * apply update_empty_elem, list_elem_of_fmap in Hp
          as (it & [= -> -> ->] & Hit).
        apply eq_None_not_Some in Hb. exfalso. apply Hb.
        apply update_empty_is_Some, list_elem_of_fmap. by exists it.
      * destruct (Hpaths name Hsome) as (b' & f & Hb' & Hf & Hst).
        exists b', f. split_and!; [|done..]. apply elem_of_app. by left.
Qed.

(** The bundle loop, from the empty state. *)
Theorem aggregate_spec (self : t J) :
  match aggregate self error items with
  | OK m =>
      NoDup (contributed_names items (bundles self)) ∧
      ∀ name p, m !! name = Some p ↔
                ∃ b, b ∈ bundles self ∧ as_map (items b) !! name = Some p
  | Raise e =>
      ∃ done b2 rest b1 name f1 f2,
        bundles self = done ++ b2 :: rest ∧ b1 ∈ done ∧
        (name, f1) ∈ items b1 ∧ (name, f2) ∈ items b2 ∧
        e = RuntimeError (error name f1 (WebpackBundle.path b1)
                                name f2 (WebpackBundle.path b2))
  end.
Proof.
  unfold aggregate.
  destruct (for_each _ _ (bundles self)) as [st|e] eqn:Hloop; simpl.
  - assert (Inv (bundles self) st) as (Hnodup & Hentries & _).
    { eapply (for_each_invariant _ Inv);
        [apply aggregate_invariant_init| |reflexivity|done].
      intros. by eapply aggregate_bundle_OK. }
    done.
  - apply for_each_Raise in Hloop as (done & b2 & rest & st & Hbs & Hdone & Hb2).
    assert (Inv done st) as Hinv.
    { eapply (for_each_invariant _ Inv _ (bundles self));
        [apply aggregate_invariant_init| | |done].
      - intros. by eapply aggregate_bundle_OK.
      - rewrite Hbs. by eexists. }
    unfold aggregate_bundle in Hb2.
    pose proof (aggregate_item_loop st.1 b2 (items b2) st.2) as Hloop.
    destruct (for_each _ _ (items b2)) as [|e']; simpl in Hb2; [done|].
    injection Hb2 as ->. destruct Hloop as (it & Hit & Hsome & ->).
    destruct Hinv as (_ & _ & Hpaths).
    destruct (Hpaths _ Hsome) as (b1 & f1 & Hb1 & Hf1 & ->). simpl.
    exists done, b2, rest, b1, it.1, f1, it.2. split_and!; try done.
    by destruct it.
Qed.

Lemma share_name_dup bs :
  share_name items bs → ¬ NoDup (contributed_names items bs).
Proof.
  intros (i & j & b1 & b2 & name & Hij & Hi & Hj & H1 & H2) Hnd.
  rewrite <-(take_drop_middle bs j b2 Hj) in Hnd.
  unfold contributed_names in Hnd. rewrite bind_app, NoDup_app in Hnd.
  destruct Hnd as (_ & Hdisj & _). apply (Hdisj name).
  - apply list_elem_of_bind. exists b1. split; [by rewrite elem_of_remove_dups|].
    apply (list_elem_of_lookup_2 _ i). by rewrite lookup_take_lt.
  - rewrite bind_cons. apply elem_of_app. left. by rewrite elem_of_remove_dups.
Qed.

Lemma share_name_split done b2 rest b1 name :
  b1 ∈ done → name ∈ (items b1).*1 → name ∈ (items b2).*1 →
  share_name items (done ++ b2 :: rest).
Proof.
  intros [i Hi]%list_elem_of_lookup_1 H1 H2.
  exists i, (length done), b1, b2, name.
  pose proof (lookup_lt_Some _ _ _ Hi) as Hlt. split_and!; [done| | |done..].
  - by rewrite lookup_app_l.
  - by rewrite list_lookup_middle.
Qed.
End aggregate_facts.

Section entry_facts.
Context {J : Type}.
Import WebpackBundleProject.

(** The aggregation raises exactly when two bundles of the list share a
    name; the values play no part. *)
Lemma aggregate_Raise_iff error items (self : t J) :
  is_OK (aggregate self error items) = false ↔ share_name items (bundles self).
Proof.
  pose proof (aggregate_spec error items self) as Hspec.
  destruct (aggregate self error items) as [m|e]; simpl.
  - split; [done|]. intros Hshare%share_name_dup. by destruct Hspec.
  - split; [|done]. intros _.
    destruct Hspec as (done & b2 & rest & b1 & name & f1 & f2 & -> & ? & ? & ? & _).
    apply (share_name_split _ _ _ _ b1 name); [done|..];
      apply list_elem_of_fmap; by eexists (_, _).
Qed.

End entry_facts.

(** * Copy instructions *)

(** Nested loops over one state are one loop over the flattened list. *)
Lemma for_each_bind {A B S} (body : S → B → result S) (g : A → list B) s l :
  for_each (λ s x, for_each body s (g x)) s l = for_each body s (l ≫= g).
Proof.
  revert s. induction l as [|x l IH]; intros s; [done|].
  rewrite for_each_cons, bind_cons, for_each_app.
  destruct (for_each body s (g x)); simpl; [apply IH|done].
Qed.

Section copy_facts.
Context {J : Type}.
Variable is_file : Path → bool.
Variable self : WebpackBundleProject.t J.
Import WebpackBundleProject.

Local Abbreviation config_dir := (_get_dir_path is_file (Path_of (config_path self))).

Lemma copy_one_accepts acc c :
  copy_one is_file config_dir (allowed_copy_paths self) acc c
  = if accepts is_file self c then OK (acc ++ [c])
    else Raise (copy_error is_file self c).
Proof.
  unfold copy_one, accepts, copy_error, getitem.
  destruct (decide (dom c = ({["from"; "to"]} : gset string))) as [Hdom|Hdom].
  - rewrite (bool_decide_eq_false_2 (dom c ≠ _)) by (by intros ?).
    rewrite (bool_decide_eq_true_2 (dom c = _)) by done.
    assert (is_Some (c !! "from")) as [from Hfrom].
    { apply elem_of_dom. rewrite Hdom. set_solver. }
    assert (is_Some (c !! "to")) as [to Hto].
    { apply elem_of_dom. rewrite Hdom. set_solver. }
    rewrite Hfrom, Hto. simpl. fold (resolved_dir is_file self from).
    fold (resolved_dir is_file self to).
    destruct (decide (allowed_copy_paths self = [])) as [Hnil|Hcons].
    + rewrite (bool_decide_eq_false_2 (_ ≠ [])) by (by intros ?).
      by rewrite (bool_decide_eq_true_2 (_ = [])).
    + rewrite (bool_decide_eq_true_2 (_ ≠ [])) by done.
      rewrite (bool_decide_eq_false_2 (_ = [])) by done. simpl.
      destruct (existsb (is_relative_to (resolved_dir is_file self from)) _);
        destruct (existsb (is_relative_to (resolved_dir is_file self to)) _);
        done.
  - rewrite (bool_decide_eq_true_2 (dom c ≠ _)) by done.
    by rewrite (bool_decide_eq_false_2 (dom c = _)).
Qed.

(** The loop over the instructions: all accepted and appended, or the
    error of the first one that is not. *)
Lemma copy_loop acc cs :
  match for_each (copy_one is_file config_dir (allowed_copy_paths self)) acc cs with
  | OK l => l = acc ++ cs ∧ Forall (λ c, accepts is_file self c = true) cs
  | Raise e => ∃ c, c ∈ cs ∧ accepts is_file self c = false ∧
                    e = copy_error is_file self c
  end.
Proof.
  revert acc. induction cs as [|c cs IH]; intros acc.
  - simpl. by rewrite app_nil_r.
  - rewrite for_each_cons, copy_one_accepts.
    destruct (accepts is_file self c) eqn:Hc; simpl.
    + specialize (IH (acc ++ [c])).
      destruct (for_each _ _ cs) as [l|e].
      * destruct IH as [-> IH]. split; [by rewrite <-app_assoc|].
        by constructor.
      * destruct IH as (c' & ? & ? & ->). exists c'. split_and!; [by right|done..].
    + exists c. split_and!; [left|done..].
Qed.

Theorem copy_spec :
  match copy is_file self with
  | OK l => l = all_copy_instructions self ∧
            Forall (λ c, accepts is_file self c = true) l
  | Raise e => ∃ c, c ∈ all_copy_instructions self ∧
                    accepts is_file self c = false ∧
                    e = copy_error is_file self c
  end.
Proof.
  unfold copy. rewrite for_each_bind.
  pose proof (copy_loop [] (all_copy_instructions self)) as Hloop.
  unfold all_copy_instructions in *.
  destruct (for_each _ _ _) as [l|e]; [|done].
  destruct Hloop as [-> Hall]. done.
Qed.

Lemma accepts_in_sandbox c :
  well_formed c → allowed_copy_paths self ≠ [] →
  accepts is_file self c = true ↔ in_sandbox is_file self c.
Proof.
  intros Hwf Hne. unfold accepts, in_sandbox.
  rewrite (bool_decide_eq_true_2 (dom c = _)) by done.
  rewrite (bool_decide_eq_false_2 (_ = [])) by done. simpl.
  destruct (c !! "from") as [from|], (c !! "to") as [to|];
    try (split; [done|by intros (? & ? & ? & ? & _)]).
  rewrite andb_true_iff, !existsb_exists. split.
  - intros [(ap1 & Hin1 & Hr1) (ap2 & Hin2 & Hr2)]. exists from, to.
    split_and!; [done|done|exists ap1|exists ap2];
      by rewrite list_elem_of_In.
  - intros (? & ? & [= <-] & [= <-] & (ap1 & Hin1 & Hr1) & (ap2 & Hin2 & Hr2)).
    split; [exists ap1|exists ap2]; by rewrite <-list_elem_of_In.
Qed.

Lemma accepts_well_formed c : accepts is_file self c = true → well_formed c.
Proof.
  unfold accepts. intros [Hwf _]%andb_true_iff.
  by apply bool_decide_eq_true in Hwf.
Qed.
End copy_facts.

Section copy_claims.
Context {J : Type}.
Variable is_file : Path → bool.
Variable self : WebpackBundleProject.t J.
Import WebpackBundleProject.

(** C8: when [copy] returns, its list is the bundles' own instructions,
    as they were given, in the order of the bundle list and, within a
    bundle, in the order of declaration. *)
Theorem copy_returns_original_instructions l :
  copy is_file self = OK l → l = bundles self ≫= WebpackBundle.copy.
Proof.
  intros Hl. pose proof (copy_spec is_file self) as Hspec.
  rewrite Hl in Hspec. by destruct Hspec.
Qed.

(** X13: what [copy] checks.  With a non-empty list of allowed paths,
    [copy] returns exactly when every instruction has the keys [from] and
    [to] and no other, and both its resolved directories are relative to an
    allowed path in the sense of [is_relative_to], which compares the
    segments as they are written.  Otherwise it raises, for an instruction of
    the list, the invalid-instruction error when the keys are wrong and the
    out-of-bounds error when a directory is outside.  With no allowed path
    every instruction with the right keys is accepted. *)
Theorem copy_sandbox :
  (allowed_copy_paths self ≠ [] →
     (is_OK (copy is_file self) = true ↔
      Forall (λ c, well_formed c ∧ in_sandbox is_file self c)
             (all_copy_instructions self))) ∧
  (allowed_copy_paths self = [] →
     (is_OK (copy is_file self) = true ↔
      Forall well_formed (all_copy_instructions self))) ∧
  (∀ e, copy is_file self = Raise e →
     ∃ c, c ∈ all_copy_instructions self ∧
       ((¬ well_formed c ∧ e = RuntimeError (InvalidCopyInstruction c)) ∨
        (well_formed c ∧ allowed_copy_paths self ≠ [] ∧
         ¬ in_sandbox is_file self c ∧
         ∃ from to,
           c !! "from" = Some from ∧ c !! "to" = Some to ∧
           e = RuntimeError
                 (CopyOutOfBounds c (resolved_dir is_file self from)
                                  (resolved_dir is_file self to)
                                  (allowed_copy_paths self))))).
Proof.
  pose proof (copy_spec is_file self) as Hspec. split_and!.
  - intros Hne. rewrite Forall_forall.
    destruct (copy is_file self) as [l|e]; simpl.
    + destruct Hspec as [-> Hall]. split; [intros _|done].
      rewrite Forall_forall in Hall. intros c Hc.
      pose proof (Hall c Hc) as Hacc.
      pose proof (accepts_well_formed is_file self c Hacc) as Hwf.
      split; [done|]. by apply (accepts_in_sandbox is_file self c Hwf Hne).
    + split; [done|]. intros Hall.
      destruct Hspec as (c & Hc & Hacc & _).
      destruct (Hall c Hc) as [Hwf Hin].
      apply (accepts_in_sandbox is_file self c Hwf Hne) in Hin. congruence.
  - intros Hnil. rewrite Forall_forall.
    destruct (copy is_file self) as [l|e]; simpl.
    + destruct Hspec as [-> Hall]. split; [intros _|done].
      rewrite Forall_forall in Hall. intros c Hc.
      exact (accepts_well_formed is_file self c (Hall c Hc)).
    + split; [done|]. intros Hall.
      destruct Hspec as (c & Hc & Hacc & _). unfold accepts in Hacc.
      rewrite (bool_decide_eq_true_2 _ (Hall c Hc)) in Hacc.
      by rewrite (bool_decide_eq_true_2 _ Hnil) in Hacc.
  - intros e He. rewrite He in Hspec.
    destruct Hspec as (c & Hc & Hacc & ->). exists c. split; [done|].
    unfold copy_error.
    destruct (decide (well_formed c)) as [Hwf|Hwf].
    + right. rewrite (bool_decide_eq_true_2 _ Hwf).
      assert (allowed_copy_paths self ≠ []) as Hne.
      { intros Hnil. unfold accepts in Hacc.
        rewrite (bool_decide_eq_true_2 _ Hwf) in Hacc.
        by rewrite (bool_decide_eq_true_2 _ Hnil) in Hacc. }
      assert (is_Some (c !! "from")) as [from Hfrom].
      { apply elem_of_dom. rewrite Hwf. set_solver. }
      assert (is_Some (c !! "to")) as [to Hto].
      { apply elem_of_dom. rewrite Hwf. set_solver. }
      split_and!; [done|done| |].
      * intros Hin.
        apply (accepts_in_sandbox is_file self c Hwf Hne) in Hin. congruence.
      * exists from, to. by rewrite Hfrom, Hto.
    + left. by rewrite (bool_decide_eq_false_2 _ Hwf).
Qed.
End copy_claims.

Lemma copy_returns_original_instructions_witness :
  WebpackBundleProject.copy config_json_is_file escaping_project
  = OK [instruction "static/../../etc" "static/assets"] ∧
  [instruction "static/../../etc" "static/assets"]
  = WebpackBundleProject.bundles escaping_project ≫= WebpackBundle.copy.
Proof.
  split; [by vm_compute|].
  apply (copy_returns_original_instructions config_json_is_file escaping_project).
  by vm_compute.
Defined.

Lemma copy_sandbox_witness :
  WebpackBundleProject.allowed_copy_paths escaping_project ≠ [] ∧
  (is_OK (WebpackBundleProject.copy config_json_is_file escaping_project) = true ↔
   Forall (λ c, well_formed c ∧ in_sandbox config_json_is_file escaping_project c)
          (all_copy_instructions escaping_project)).
Proof.
  assert (WebpackBundleProject.allowed_copy_paths escaping_project ≠ []) as Hne
    by (by vm_compute).
  split; [exact Hne|].
  exact (proj1 (copy_sandbox config_json_is_file escaping_project) Hne).
Defined.

(** C1: the bounds check of [copy] misses an escape through [..].  The
    only allowed path is [/proj/static]; the instruction [{from:
    static/../../etc, to: static/assets}] has the [from] directory
    [/proj/static/../../etc], which names [/etc].  [is_relative_to] compares
    the segments as they are written, finds [proj] and [static] in front and
    accepts, so [copy] returns the instruction; on normalized segments the
    directory is not contained in the root, and validation succeeds where
    the claim has it fail. *)
Theorem copy_misses_dotdot_escape :
  WebpackBundleProject.allowed_copy_paths escaping_project
  = [Path_of "/proj/static"] ∧
  resolved_dir config_json_is_file escaping_project "static/../../etc"
  = mkPath "/" ["proj"; "static"; ".."; ".."; "etc"] ∧
  normalize_segments []
    (parts (resolved_dir config_json_is_file escaping_project "static/../../etc"))
  = ["etc"] ∧
  isContainedIn (resolved_dir config_json_is_file escaping_project "static/../../etc")
                (Path_of "/proj/static") = false ∧
  WebpackBundleProject.copy config_json_is_file escaping_project
  = OK [instruction "static/../../etc" "static/assets"] ∧
  ¬ sandbox_as_specified config_json_is_file escaping_project.
Proof.
  split_and!; [by vm_compute..|].
  intros Hspec. destruct Hspec as [Hspec _]; [by vm_compute|].
  destruct (Hspec eq_refl (instruction "static/../../etc" "static/assets"))
    as (from & to & Hfrom & _ & (ap & Hap & Hin) & _).
  - left.
  - vm_compute in Hfrom. injection Hfrom as <-.
    apply list_elem_of_singleton in Hap as ->. by vm_compute in Hin.
Qed.

(** * Merging dependencies *)

Lemma merge_package_absent (target : gmap string string) pkg version :
  target !! pkg = None →
  merge_package target (pkg, version) = OK (<[pkg := version]> target).
Proof. intros H. unfold merge_package. by rewrite H. Qed.

Lemma merge_package_same (target : gmap string string) pkg version :
  target !! pkg = Some version →
  merge_package target (pkg, version) = OK target.
Proof. intros H. unfold merge_package. rewrite H. by rewrite decide_True. Qed.

Lemma merge_package_conflict (target : gmap string string) pkg existing version :
  target !! pkg = Some existing → existing ≠ version →
  merge_package target (pkg, version)
  = Raise (MergeConflictError (mkMergeMessage pkg existing version None)).
Proof. intros H ?. unfold merge_package. rewrite H. by rewrite decide_False. Qed.

Lemma merge_package_loop (target : gmap string string) (l : list (string * string)) :
  NoDup l.*1 →
  match for_each merge_package target l with
  | OK merged =>
      (∀ pkg v1 v2, target !! pkg = Some v1 → (pkg, v2) ∈ l → v1 = v2) ∧
      merged = target ∪ list_to_map l
  | Raise e =>
      ∃ pkg existing incoming,
        (pkg, incoming) ∈ l ∧ target !! pkg = Some existing ∧
        existing ≠ incoming ∧
        e = MergeConflictError (mkMergeMessage pkg existing incoming None)
  end.
Proof.
  revert target. induction l as [|[pkg v] l IH]; intros target Hnd.
  - simpl. split; [by intros ???? ?%elem_of_nil|].
    by rewrite (right_id_L ∅ (∪)).
  - apply NoDup_cons in Hnd as [Hpkg Hnd]. simpl in Hpkg.
    rewrite for_each_cons.
    destruct (target !! pkg) as [existing|] eqn:Htarget.
    + destruct (decide (existing = v)) as [->|Hne];
        [rewrite merge_package_same by done
        |rewrite (merge_package_conflict _ _ existing) by done]; simpl.
      * specialize (IH target Hnd).
        destruct (for_each merge_package target l) as [merged|e].
        -- destruct IH as [Hcompat ->]. split.
           ++ intros pkg' v1 v2 H1 [[= -> ->]|H2]%elem_of_cons; [congruence|eauto].
           ++ apply map_eq. intros k. rewrite !lookup_union.
              destruct (decide (k = pkg)) as [->|].
              ** rewrite lookup_insert_eq, Htarget.
                 by destruct (list_to_map l !! pkg).
              ** by rewrite lookup_insert_ne.
        -- destruct IH as (pkg' & ex & inc & ? & ? & ? & ->).
           exists pkg', ex, inc. split_and!; [by right|done..].
      * exists pkg, existing, v. split_and!; [left|done..].
    + rewrite merge_package_absent by done. simpl.
      specialize (IH (<[pkg:=v]> target) Hnd).
      assert (∀ pkg' v', (pkg', v') ∈ l → pkg' ≠ pkg) as Hother.
      { intros pkg' v' Hin ->. apply Hpkg, list_elem_of_fmap. by exists (pkg, v'). }
      destruct (for_each merge_package _ l) as [merged|e].
      * destruct IH as [Hcompat ->]. split.
        -- intros pkg' v1 v2 H1 [[= -> ->]|H2]%elem_of_cons; [congruence|].
           apply (Hcompat pkg'); [|done].
           rewrite lookup_insert_ne; [done|]. intros <-. by eapply Hother.
        -- rewrite <-insert_union_l, <-insert_union_r by done. done.
      * destruct IH as (pkg' & ex & inc & Hin & Hex & ? & ->).
        exists pkg', ex, inc. split_and!; [by right| |done..].
        rewrite lookup_insert_ne in Hex; [done|]. intros <-. by eapply Hother.
Qed.

(** One dependency class: the packages of [src] merged into [target]. *)
Lemma merge_class_spec (target src : gmap string string) :
  match for_each merge_package target (map_to_list src) with
  | OK merged =>
      (∀ pkg v1 v2, target !! pkg = Some v1 → src !! pkg = Some v2 → v1 = v2) ∧
      merged = target ∪ src
  | Raise e =>
      ∃ pkg existing incoming,
        target !! pkg = Some existing ∧ src !! pkg = Some incoming ∧
        existing ≠ incoming ∧
        e = MergeConflictError (mkMergeMessage pkg existing incoming None)
  end.
Proof.
  pose proof (merge_package_loop target (map_to_list src)
                (NoDup_fst_map_to_list src)) as Hloop.
  destruct (for_each merge_package target (map_to_list src)) as [merged|e].
  - destruct Hloop as [Hcompat ->]. rewrite list_to_map_to_list. split; [|done].
    intros pkg v1 v2 H1 H2. apply (Hcompat pkg); [done|].
    by apply elem_of_map_to_list.
  - destruct Hloop as (pkg & ex & inc & Hin%elem_of_map_to_list & ? & ? & ->).
    by exists pkg, ex, inc.
Qed.

Section merge_deps_facts.
Context {J : Type}.

Lemma get_class_insert_eq (m : manifest J) k d :
  get_class (<[k := Deps d]> m) k = d.
Proof. unfold get_class. by rewrite lookup_insert_eq. Qed.

Lemma get_class_insert_ne (m : manifest J) k k' v :
  k ≠ k' → get_class (<[k := v]> m) k' = get_class m k'.
Proof. intros. unfold get_class. by rewrite lookup_insert_ne. Qed.

(** The loop of [merge_deps] over distinct classes [ks], started from
    [deps], which has the classes [ks] as [deps0] has them. *)
Lemma merge_deps_loop (deps0 bundles_deps : manifest J) ks (deps : manifest J) :
  NoDup ks →
  (∀ k, k ∈ ks → get_class deps k = get_class deps0 k) →
  match for_each (λ deps k,
          merged ← for_each merge_package (get_class deps k)
                            (map_to_list (get_class bundles_deps k));
          OK (<[k := Deps merged]> deps)) deps ks with
  | OK r =>
      (∀ k pkg v1 v2, k ∈ ks → get_class deps0 k !! pkg = Some v1 →
                      get_class bundles_deps k !! pkg = Some v2 → v1 = v2) ∧
      r = foldl (λ acc k, <[k := Deps (get_class deps0 k
                                         ∪ get_class bundles_deps k)]> acc) deps ks
  | Raise e =>
      ∃ k pkg existing incoming,
        k ∈ ks ∧ get_class deps0 k !! pkg = Some existing ∧
        get_class bundles_deps k !! pkg = Some incoming ∧
        existing ≠ incoming ∧
        e = MergeConflictError (mkMergeMessage pkg existing incoming None)
  end.
Proof.
  revert deps. induction ks as [|k ks IH]; intros deps Hnd Hsame.
  - simpl. split; [|done]. by intros ???? ?%elem_of_nil.
  - apply NoDup_cons in Hnd as [Hk Hnd]. rewrite for_each_cons.
    pose proof (merge_class_spec (get_class deps k) (get_class bundles_deps k))
      as Hclass.
    rewrite (Hsame k) in Hclass |- * by left.
    destruct (for_each merge_package _ _) as [merged|e]; simpl.
    + destruct Hclass as [Hcompat ->].
      match goal with
      | |- context [for_each ?body ?d ks] => specialize (IH d Hnd); set (d' := d) in *
      end.
      assert (∀ k', k' ∈ ks → get_class d' k' = get_class deps0 k') as Hsame'.
      { intros k' Hk'. unfold d'. rewrite get_class_insert_ne.
        - apply Hsame. by right.
        - by intros ->. }
      specialize (IH Hsame').
      destruct (for_each _ d' ks) as [r|e].
      * destruct IH as [Hcompat' ->]. split; [|done].
        intros k' pkg v1 v2 [->|Hk']%elem_of_cons; [apply Hcompat|by apply Hcompat'].
      * destruct IH as (k' & pkg & ex & inc & ? & ? & ? & ? & ->).
        exists k', pkg, ex, inc. split_and!; [by right|done..].
    + destruct Hclass as (pkg & ex & inc & ? & ? & ? & ->).
      exists k, pkg, ex, inc. split_and!; [left|done..].
Qed.

Lemma NoDup_dependency_classes : NoDup dependency_classes.
Proof.
  unfold dependency_classes.
  apply NoDup_cons_2.
  { rewrite !elem_of_cons, elem_of_nil. by intros [?|[?|?]]. }
  apply NoDup_cons_2.
  { rewrite !elem_of_cons, elem_of_nil. by intros [?|?]. }
  apply NoDup_cons_2; [apply not_elem_of_nil|apply NoDup_nil_2].
Qed.

(** [merge_deps] returns the merged manifest when the two manifests are
    compatible, and raises the conflict of a package otherwise. *)
Theorem merge_deps_spec (deps bundles_deps : manifest J) :
  match merge_deps deps bundles_deps with
  | OK r => compatible deps bundles_deps ∧ r = merged_manifest deps bundles_deps
  | Raise e =>
      ∃ k pkg existing incoming,
        k ∈ dependency_classes ∧
        get_class deps k !! pkg = Some existing ∧
        get_class bundles_deps k !! pkg = Some incoming ∧
        existing ≠ incoming ∧
        e = MergeConflictError (mkMergeMessage pkg existing incoming None)
  end.
Proof.
  pose proof (merge_deps_loop deps bundles_deps dependency_classes deps
                NoDup_dependency_classes (λ _ _, eq_refl)) as Hloop.
  unfold merge_deps. destruct (for_each _ deps dependency_classes) as [r|e];
    [|done].
  destruct Hloop as [Hcompat ->]. split; [|done].
  intros k pkg v1 v2 Hk. by apply Hcompat.
Qed.

Lemma merged_manifest_other (deps bundles_deps : manifest J) key :
  key ∉ dependency_classes →
  merged_manifest deps bundles_deps !! key = deps !! key.
Proof.
  intros Hkey. unfold merged_manifest, dependency_classes in *. simpl.
  rewrite !lookup_insert_ne; [done|..]; intros <-; apply Hkey;
    repeat constructor.
Qed.

Lemma merged_manifest_class (deps bundles_deps : manifest J) k :
  k ∈ dependency_classes →
  merged_manifest deps bundles_deps !! k
  = Some (Deps (get_class deps k ∪ get_class bundles_deps k)).
Proof.
  unfold merged_manifest, dependency_classes. simpl.
  rewrite !elem_of_cons. intros [->|[->|[->|?%elem_of_nil]]]; [..|done].
  - rewrite lookup_insert_ne by done. rewrite lookup_insert_ne by done.
    by rewrite lookup_insert_eq.
  - rewrite lookup_insert_ne by done. by rewrite lookup_insert_eq.
  - by rewrite lookup_insert_eq.
Qed.

Lemma get_class_merged_manifest (deps bundles_deps : manifest J) k :
  k ∈ dependency_classes →
  get_class (merged_manifest deps bundles_deps) k
  = get_class deps k ∪ get_class bundles_deps k.
Proof.
  intros Hk. unfold get_class at 1. by rewrite merged_manifest_class.
Qed.
End merge_deps_facts.

(** * [dependencies] and [package_json] *)

Section dependencies_facts.
Context {J : Type}.
Import WebpackBundleProject.

Lemma collects_init : collects [] (@empty_dependencies J) ∧ agree (@nil (WebpackBundle.t J)).
Proof.
  split; [split_and!|].
  - intros key Hkey. unfold empty_dependencies.
    rewrite !lookup_insert_ne; [done|..]; intros <-; apply Hkey;
      repeat constructor.
  - unfold dependency_classes, empty_dependencies. intros k.
    rewrite !elem_of_cons. intros [->|[->|[->|?%elem_of_nil]]]; done.
  - intros k pkg v. unfold dependency_classes, empty_dependencies.
    rewrite !elem_of_cons.
    intros [->|[->|[->|?%elem_of_nil]]]; [..|done];
      (split; [done|by intros (? & ?%elem_of_nil & _)]).
  - by intros ?????? ?%elem_of_nil.
Qed.

Lemma collects_step done res (b : WebpackBundle.t J) r :
  collects done res ∧ agree done →
  merge_deps res (WebpackBundle.dependencies b) = OK r →
  collects (done ++ [b]) r ∧ agree (done ++ [b]).
Proof.
  intros [(Hother & Hclass & Hcontent) Hagree] Hr.
  pose proof (merge_deps_spec res (WebpackBundle.dependencies b)) as Hspec.
  rewrite Hr in Hspec. destruct Hspec as [Hcompat ->].
  assert (∀ k pkg v, k ∈ dependency_classes →
            (get_class res k ∪ get_class (WebpackBundle.dependencies b) k) !! pkg
            = Some v ↔
            ∃ b', b' ∈ done ++ [b] ∧
                  get_class (WebpackBundle.dependencies b') k !! pkg = Some v)
    as Hunion.
  { intros k pkg v Hk. rewrite lookup_union_Some_raw. split.
    - intros [(b' & ? & ?)%Hcontent|[_ ?]]; [|done|].
      + exists b'. split; [apply elem_of_app; by left|done].
      + exists b. split; [apply elem_of_app; right; left|done].
    - intros (b' & [Hb'|Hb']%elem_of_app & Hv).
      + left. apply Hcontent; [done|]. by exists b'.
      + apply list_elem_of_singleton in Hb' as ->.
        destruct (get_class res k !! pkg) as [v1|] eqn:Hres; [|by right].
        left. f_equal. by eapply Hcompat. }
  split; [split_and!|].
  - intros key Hkey. rewrite merged_manifest_other by done. by apply Hother.
  - intros k Hk. rewrite merged_manifest_class by done.
    by rewrite get_class_merged_manifest.
  - intros k pkg v Hk. rewrite get_class_merged_manifest by done.
    by apply Hunion.
  - intros b1 b2 k pkg v1 v2 Hb1 Hb2 Hk H1 H2.
    assert ((get_class res k ∪ get_class (WebpackBundle.dependencies b) k) !! pkg
            = Some v1) as Hv1 by (apply Hunion; [done|by exists b1]).
    assert ((get_class res k ∪ get_class (WebpackBundle.dependencies b) k) !! pkg
            = Some v2) as Hv2 by (apply Hunion; [done|by exists b2]).
    congruence.
Qed.

Lemma found_in_OK conflicting {A} (r : result A) a :
  found_in conflicting r = OK a ↔ r = OK a.
Proof. destruct r as [|[]]; simpl; split; congruence. Qed.

(** [dependencies]: the classes collected from the bundles when they
    agree; otherwise the conflict of a bundle with one before it, with the
    path of the later bundle. *)
Theorem dependencies_spec (self : t J) :
  match dependencies self with
  | OK res => collects (bundles self) res ∧ agree (bundles self)
  | Raise e =>
      ∃ done b rest b1 k pkg existing incoming,
        bundles self = done ++ b :: rest ∧ b1 ∈ done ∧
        k ∈ dependency_classes ∧
        get_class (WebpackBundle.dependencies b1) k !! pkg = Some existing ∧
        get_class (WebpackBundle.dependencies b) k !! pkg = Some incoming ∧
        existing ≠ incoming ∧
        e = MergeConflictError
              (mkMergeMessage pkg existing incoming (Some (WebpackBundle.path b)))
  end.
Proof.
  unfold dependencies.
  destruct (for_each _ _ (bundles self)) as [res|e] eqn:Hloop.
  - eapply (for_each_invariant _ (λ done res, collects done res ∧ agree done)
              _ (bundles self)); [apply collects_init| |reflexivity|done].
    intros done b res0 r Hinv Hr%found_in_OK. by eapply collects_step.
  - apply for_each_Raise in Hloop as (done & b & rest & res & Hbs & Hdone & Hb).
    assert (collects done res ∧ agree done) as [(_ & _ & Hcontent) _].
    { eapply (for_each_invariant _ (λ done res, collects done res ∧ agree done)
                _ (bundles self)); [apply collects_init| | |done].
      - intros done' b' res0 r Hinv Hr%found_in_OK. by eapply collects_step.
      - rewrite Hbs. by eexists. }
    pose proof (merge_deps_spec res (WebpackBundle.dependencies b)) as Hspec.
    destruct (merge_deps res (WebpackBundle.dependencies b)) as [|e']; [done|].
    destruct Hspec as (k & pkg & ex & inc & Hk & Hex & Hinc & Hne & ->).
    simpl in Hb. injection Hb as <-.
    apply Hcontent in Hex as (b1 & Hb1 & Hex); [|done].
    by exists done, b, rest, b1, k, pkg, ex, inc.
Qed.

(** A manifest is determined by what [collects] says of it. *)
Lemma collects_unique bs bs' (res res' : manifest J) :
  bs ≡ₚ bs' → collects bs res → collects bs' res' → res = res'.
Proof.
  intros Hperm (Hother & Hclass & Hcontent) (Hother' & Hclass' & Hcontent').
  apply map_eq. intros key.
  destruct (decide (key ∈ dependency_classes)) as [Hk|Hk].
  - rewrite Hclass, Hclass' by done. do 2 f_equal.
    apply map_eq. intros pkg. apply option_eq. intros v.
    rewrite Hcontent, Hcontent' by done.
    split; intros (b & Hb & ?); exists b; split; try done.
    + by rewrite <-Hperm.
    + by rewrite Hperm.
  - by rewrite Hother, Hother'.
Qed.
End dependencies_facts.

Section dependency_claims.
Context {J : Type}.
Import WebpackBundleProject.

(** C7: within one dependency class, a package absent from the target is
    inserted with the incoming range, a package present with the same
    range is left as it is, and a package present with another range makes
    the merge raise the conflict with the package and both ranges. *)
Theorem dependency_merge_policy (deps bundles_deps : manifest J) :
  (∀ (target : gmap string string) pkg version,
     match target !! pkg with
     | None => merge_package target (pkg, version)
               = OK (<[pkg := version]> target)
     | Some existing =>
         if decide (existing = version)
         then merge_package target (pkg, version) = OK target
         else merge_package target (pkg, version)
              = Raise (MergeConflictError
                         (mkMergeMessage pkg existing version None))
     end) ∧
  match merge_deps deps bundles_deps with
  | OK r =>
      compatible deps bundles_deps ∧
      ∀ k pkg, k ∈ dependency_classes →
        get_class r k !! pkg
        = match get_class deps k !! pkg with
          | Some existing => Some existing
          | None => get_class bundles_deps k !! pkg
          end
  | Raise e =>
      ∃ k pkg existing incoming,
        k ∈ dependency_classes ∧
        get_class deps k !! pkg = Some existing ∧
        get_class bundles_deps k !! pkg = Some incoming ∧
        existing ≠ incoming ∧
        e = MergeConflictError (mkMergeMessage pkg existing incoming None)
  end.
Proof.
  split.
  - intros target pkg version.
    destruct (target !! pkg) as [existing|] eqn:Htarget.
    + destruct (decide (existing = version)) as [->|Hne].
      * by apply merge_package_same.
      * by apply merge_package_conflict.
    + by apply merge_package_absent.
  - pose proof (merge_deps_spec deps bundles_deps) as Hspec.
    destruct (merge_deps deps bundles_deps) as [r|e]; [|done].
    destruct Hspec as [Hcompat ->]. split; [done|].
    intros k pkg Hk. rewrite get_class_merged_manifest by done.
    rewrite lookup_union. by destruct (get_class deps k !! pkg),
      (get_class bundles_deps k !! pkg).
Qed.

Lemma package_json_OK (self : t J) r :
  package_json self = OK r →
  ∃ deps, dependencies self = OK deps ∧
          compatible (package_json_source self) deps ∧
          r = merged_manifest (package_json_source self) deps.
Proof.
  unfold package_json. destruct (dependencies self) as [deps|]; [|done].
  simpl. intros Hr. exists deps. split; [done|].
  pose proof (merge_deps_spec (package_json_source self) deps) as Hspec.
  by rewrite Hr in Hspec.
Qed.

(** C9: when the merge succeeds, the package manifest has, under each of
    the three dependency fields, the class of the base manifest merged with
    what the bundles contribute to it, and under every other key what the
    base manifest has there. *)
Theorem package_json_frame (self : t J) r :
  package_json self = OK r →
  (∀ key, key ∉ dependency_classes → r !! key = package_json_source self !! key) ∧
  (∀ k, k ∈ dependency_classes →
     ∃ merged, r !! k = Some (Deps merged) ∧
       ∀ pkg v, merged !! pkg = Some v ↔
         get_class (package_json_source self) k !! pkg = Some v ∨
         ∃ b, b ∈ bundles self ∧
              get_class (WebpackBundle.dependencies b) k !! pkg = Some v).
Proof.
  intros (deps & Hdeps & Hcompat & ->)%package_json_OK.
  pose proof (dependencies_spec self) as Hspec. rewrite Hdeps in Hspec.
  destruct Hspec as [(_ & _ & Hcontent) _]. split.
  - intros key Hkey. by apply merged_manifest_other.
  - intros k Hk. eexists. split; [by apply merged_manifest_class|].
    intros pkg v. rewrite lookup_union_Some_raw, Hcontent by done. split.
    + intros [?|[_ ?]]; [by left|by right].
    + intros [?|Hb]; [by left|].
      destruct (get_class (package_json_source self) k !! pkg) as [v1|] eqn:Hbase;
        [|by right].
      left. f_equal. eapply Hcompat; [done..|]. by apply Hcontent.
Qed.

(** C3, amended: the bundles are merged first, in list order, into an
    empty accumulator, and the result is then merged into the base
    manifest.  A conflict between two bundles is raised with the package,
    both ranges and the path of the later bundle; a conflict between the
    base manifest and the bundles' contributions is raised with the package
    and both ranges, and with no bundle path. *)
Theorem package_json_conflict (self : t J) e :
  package_json self = Raise e →
  (∃ done b rest b1 k pkg existing incoming,
     bundles self = done ++ b :: rest ∧ b1 ∈ done ∧
     k ∈ dependency_classes ∧
     get_class (WebpackBundle.dependencies b1) k !! pkg = Some existing ∧
     get_class (WebpackBundle.dependencies b) k !! pkg = Some incoming ∧
     existing ≠ incoming ∧
     e = MergeConflictError
           (mkMergeMessage pkg existing incoming (Some (WebpackBundle.path b)))) ∨
  (∃ deps b k pkg existing incoming,
     dependencies self = OK deps ∧ b ∈ bundles self ∧
     k ∈ dependency_classes ∧
     get_class (package_json_source self) k !! pkg = Some existing ∧
     get_class (WebpackBundle.dependencies b) k !! pkg = Some incoming ∧
     existing ≠ incoming ∧
     e = MergeConflictError (mkMergeMessage pkg existing incoming None)).
Proof.
  unfold package_json. pose proof (dependencies_spec self) as Hspec.
  destruct (dependencies self) as [deps|e']; simpl.
  - intros He. right.
    pose proof (merge_deps_spec (package_json_source self) deps) as Hmerge.
    rewrite He in Hmerge.
    destruct Hmerge as (k & pkg & ex & inc & Hk & Hex & Hinc & Hne & ->).
    destruct Hspec as [(_ & _ & Hcontent) _].
    apply Hcontent in Hinc as (b & Hb & Hinc); [|done].
    by exists deps, b, k, pkg, ex, inc.
  - intros [= <-]. by left.
Qed.
End dependency_claims.

Lemma package_json_frame_witness :
  ∃ r, WebpackBundleProject.package_json named_project = OK r ∧
       r !! "name" = Some (Json tt) ∧ r !! "scripts" = Some (Json tt) ∧
       ∃ merged, r !! "dependencies" = Some (Deps merged) ∧
                 merged !! "react" = Some "^18.0.0" ∧
                 merged !! "lodash" = Some "^4.0.0" ∧
                 merged !! "jquery" = Some "^3.0.0".
Proof.
  assert (is_OK (WebpackBundleProject.package_json named_project) = true) as Hok
    by (vm_compute; reflexivity).
  destruct (WebpackBundleProject.package_json named_project) as [r|e] eqn:Hrun;
    [|discriminate Hok].
  destruct (package_json_frame named_project r Hrun) as [Hother Hclass].
  exists r. split_and!; [reflexivity| | |].
  - rewrite Hother; [reflexivity|].
    refine (@bool_decide_unpack ("name" ∉ dependency_classes) _ _).
    vm_compute. exact I.
  - rewrite Hother; [reflexivity|].
    refine (@bool_decide_unpack ("scripts" ∉ dependency_classes) _ _).
    vm_compute. exact I.
  - destruct (Hclass "dependencies") as (merged & Hmerged & Hcontent); [left|].
    exists merged. split; [exact Hmerged|]. split_and!; apply Hcontent.
    + left. reflexivity.
    + right. exists bundle_a. split; [left|reflexivity].
    + right. exists bundle_b. split; [right; left|reflexivity].
Defined.

Lemma package_json_conflict_witness :
  WebpackBundleProject.package_json lodash_project
  = Raise (MergeConflictError (mkMergeMessage "lodash" "^4.0.0" "^3.0.0" None)) ∧
  ((∃ done b rest b1 k pkg existing incoming,
      WebpackBundleProject.bundles lodash_project = done ++ b :: rest ∧ b1 ∈ done ∧
      k ∈ dependency_classes ∧
      get_class (WebpackBundle.dependencies b1) k !! pkg = Some existing ∧
      get_class (WebpackBundle.dependencies b) k !! pkg = Some incoming ∧
      existing ≠ incoming ∧
      MergeConflictError (mkMergeMessage "lodash" "^4.0.0" "^3.0.0" None)
      = MergeConflictError
          (mkMergeMessage pkg existing incoming (Some (WebpackBundle.path b)))) ∨
   (∃ deps b k pkg existing incoming,
      WebpackBundleProject.dependencies lodash_project = OK deps ∧
      b ∈ WebpackBundleProject.bundles lodash_project ∧
      k ∈ dependency_classes ∧
      get_class (WebpackBundleProject.package_json_source lodash_project) k !! pkg
      = Some existing ∧
      get_class (WebpackBundle.dependencies b) k !! pkg = Some incoming ∧
      existing ≠ incoming ∧
      MergeConflictError (mkMergeMessage "lodash" "^4.0.0" "^3.0.0" None)
      = MergeConflictError (mkMergeMessage pkg existing incoming None))).
Proof.
  assert (WebpackBundleProject.package_json lodash_project
          = Raise (MergeConflictError
                     (mkMergeMessage "lodash" "^4.0.0" "^3.0.0" None))) as Hrun
    by (vm_compute; reflexivity).
  split; [exact Hrun|]. apply (package_json_conflict lodash_project _ Hrun).
Defined.

(** C3, as stated, fails: the base manifest has lodash [^4.0.0], the only
    bundle lodash [^3.0.0]; the conflict is raised by [package_json], outside
    the [try] of [dependencies], and carries no bundle path. *)
Lemma conflict_with_base_names_no_bundle :
  ¬ conflicts_name_a_bundle lodash_project.
Proof.
  intros Hclaim.
  destruct (Hclaim (mkMergeMessage "lodash" "^4.0.0" "^3.0.0" None))
    as (b & _ & Hpath); [by vm_compute|done].
Qed.

(** * The order of the bundles *)

Section order.
Context {J : Type}.
Variable is_file : Path → bool.
Variable self : WebpackBundleProject.t J.
Import WebpackBundleProject.

Lemma aggregate_permutation error items bs bs' :
  bs ≡ₚ bs' →
  same_outcome (=) (aggregate (with_bundles self bs) error items)
                   (aggregate (with_bundles self bs') error items).
Proof.
  intros Hperm.
  pose proof (aggregate_spec error items (with_bundles self bs)) as Hbs.
  pose proof (aggregate_spec error items (with_bundles self bs')) as Hbs'.
  assert (contributed_names items bs ≡ₚ contributed_names items bs') as Hnames.
  { unfold contributed_names. by rewrite Hperm. }
  destruct (aggregate (with_bundles self bs) error items) as [m|e],
           (aggregate (with_bundles self bs') error items) as [m'|e'];
    simpl in *; [| | |done].
  - destruct Hbs as [_ Hm], Hbs' as [_ Hm'].
    apply map_eq. intros name. apply option_eq. intros p.
    rewrite Hm, Hm'. split; intros (b & Hb & ?); exists b; split; try done.
    + by rewrite <-Hperm.
    + by rewrite Hperm.
  - destruct Hbs as [Hnd _].
    destruct Hbs' as (done & b2 & rest & b1 & name & f1 & f2 & -> & ? & ? & ? & _).
    rewrite Hnames in Hnd. revert Hnd. apply share_name_dup.
    apply (share_name_split _ _ _ _ b1 name); [done|..];
      apply list_elem_of_fmap; by eexists (_, _).
  - destruct Hbs' as [Hnd _].
    destruct Hbs as (done & b2 & rest & b1 & name & f1 & f2 & -> & ? & ? & ? & _).
    rewrite <-Hnames in Hnd. revert Hnd. apply share_name_dup.
    apply (share_name_split _ _ _ _ b1 name); [done|..];
      apply list_elem_of_fmap; by eexists (_, _).
Qed.

Lemma copy_permutation bs bs' :
  bs ≡ₚ bs' →
  same_outcome (≡ₚ) (copy is_file (with_bundles self bs))
                    (copy is_file (with_bundles self bs')).
Proof.
  intros Hperm.
  pose proof (copy_spec is_file (with_bundles self bs)) as Hbs.
  pose proof (copy_spec is_file (with_bundles self bs')) as Hbs'.
  assert (all_copy_instructions (with_bundles self bs)
          ≡ₚ all_copy_instructions (with_bundles self bs')) as Hall.
  { unfold all_copy_instructions. simpl. by rewrite Hperm. }
  destruct (copy is_file (with_bundles self bs)) as [l|e],
           (copy is_file (with_bundles self bs')) as [l'|e'];
    simpl in *; [| | |done].
  - destruct Hbs as [-> _], Hbs' as [-> _]. done.
  - destruct Hbs as [-> Hacc], Hbs' as (c & Hc & Hno & _).
    rewrite Forall_forall in Hacc. rewrite <-Hall in Hc.
    apply Hacc in Hc.
    change (accepts is_file (with_bundles self bs) c)
      with (accepts is_file (with_bundles self bs') c) in Hc. congruence.
  - destruct Hbs' as [-> Hacc], Hbs as (c & Hc & Hno & _).
    rewrite Forall_forall in Hacc. rewrite Hall in Hc.
    apply Hacc in Hc.
    change (accepts is_file (with_bundles self bs') c)
      with (accepts is_file (with_bundles self bs) c) in Hc. congruence.
Qed.

Lemma agree_permutation (bs bs' : list (WebpackBundle.t J)) :
  bs ≡ₚ bs' → agree bs → agree bs'.
Proof.
  intros Hperm Hagree b1 b2 k pkg v1 v2 Hb1 Hb2.
  rewrite <-Hperm in Hb1, Hb2. by apply Hagree.
Qed.

Lemma dependencies_permutation bs bs' :
  bs ≡ₚ bs' →
  same_outcome (=) (dependencies (with_bundles self bs))
                   (dependencies (with_bundles self bs')).
Proof.
  intros Hperm.
  pose proof (dependencies_spec (with_bundles self bs)) as Hbs.
  pose proof (dependencies_spec (with_bundles self bs')) as Hbs'.
  destruct (dependencies (with_bundles self bs)) as [res|e],
           (dependencies (with_bundles self bs')) as [res'|e'];
    simpl in *; [| | |done].
  - destruct Hbs as [Hres _], Hbs' as [Hres' _]. by eapply collects_unique.
  - destruct Hbs as [_ Hagree].
    apply (agree_permutation _ _ Hperm) in Hagree.
    destruct Hbs' as (done & b & rest & b1 & k & pkg & ex & inc
                      & -> & Hb1 & Hk & Hex & Hinc & Hne & _).
    apply Hne. apply (Hagree b1 b k pkg); try done.
    + apply elem_of_app. by left.
    + apply elem_of_app. right. left.
  - destruct Hbs' as [_ Hagree]. symmetry in Hperm.
    apply (agree_permutation _ _ Hperm) in Hagree.
    destruct Hbs as (done & b & rest & b1 & k & pkg & ex & inc
                     & -> & Hb1 & Hk & Hex & Hinc & Hne & _).
    apply Hne. apply (Hagree b1 b k pkg); try done.
    + apply elem_of_app. by left.
    + apply elem_of_app. right. left.
Qed.

Lemma package_json_permutation bs bs' :
  bs ≡ₚ bs' →
  same_outcome (=) (package_json (with_bundles self bs))
                   (package_json (with_bundles self bs')).
Proof.
  intros Hperm%dependencies_permutation. unfold package_json.
  destruct (dependencies (with_bundles self bs)) as [res|e],
           (dependencies (with_bundles self bs')) as [res'|e'];
    simpl in *; try done.
  subst res'. by destruct (merge_deps _ res).
Qed.

(** C2, amended: for two lists of bundles that are permutations of each
    other, the entry map, the alias map, the merged dependencies and the
    package manifest are the same, and the validated copy lists are
    permutations of each other (each follows the order of its bundle
    list); and a part that raises for one list raises for the other. *)
Theorem permuted_bundles bs bs' :
  bs ≡ₚ bs' →
  same_outcome (=) (entry (with_bundles self bs)) (entry (with_bundles self bs')) ∧
  same_outcome (=) (aliases (with_bundles self bs))
                   (aliases (with_bundles self bs')) ∧
  same_outcome (≡ₚ) (copy is_file (with_bundles self bs))
                    (copy is_file (with_bundles self bs')) ∧
  same_outcome (=) (dependencies (with_bundles self bs))
                   (dependencies (with_bundles self bs')) ∧
  same_outcome (=) (package_json (with_bundles self bs))
                   (package_json (with_bundles self bs')).
Proof.
  intros Hperm. split_and!.
  - by apply aggregate_permutation.
  - by apply aggregate_permutation.
  - by apply copy_permutation.
  - by apply dependencies_permutation.
  - by apply package_json_permutation.
Qed.
End order.

Lemma permuted_bundles_witness :
  [bundle_a; bundle_b] ≡ₚ [bundle_b; bundle_a] ∧
  same_outcome (≡ₚ)
    (WebpackBundleProject.copy config_json_is_file
       (with_bundles (project_of [] [] ∅) [bundle_a; bundle_b]))
    (WebpackBundleProject.copy config_json_is_file
       (with_bundles (project_of [] [] ∅) [bundle_b; bundle_a])).
Proof.
  assert ([bundle_a; bundle_b] ≡ₚ [bundle_b; bundle_a]) as Hperm
    by apply Permutation_swap.
  split; [exact Hperm|].
  exact (proj1 (proj2 (proj2
           (permuted_bundles config_json_is_file (project_of [] [] ∅)
                             [bundle_a; bundle_b] [bundle_b; bundle_a] Hperm)))).
Defined.

(** C2, as stated, fails: two bundles without any conflict, each with one
    copy instruction; the other order of the bundles gives the copy list in
    the other order. *)
Lemma order_independent_fails :
  ¬ order_independent config_json_is_file (project_of [] [] ∅)
      [bundle_a; bundle_b] [bundle_b; bundle_a].
Proof.
  intros Hclaim. destruct Hclaim as (_ & _ & Hcopy & _).
  - apply Permutation_swap.
  - split_and!; vm_compute; reflexivity.
  - apply (f_equal (λ r, match r with
                         | OK (c :: _) => c !! "from"
                         | _ => None
                         end)) in Hcopy.
    vm_compute in Hcopy. discriminate Hcopy.
Qed.

(** * The instance and the store *)

Section store_facts.
Context {J : Type}.
Variable is_file : Path → bool.
Variable self : WebpackBundleProject.t J.
Import WebpackBundleProject.

Lemma bind_run {A B} (m : M J A) (k : A → M J B) s :
  (m ≫= k) s = match m s with
               | (OK a, s') => k a s'
               | (Raise e, s') => (Raise e, s')
               end.
Proof. done. Qed.

Lemma cache_ok_set_entry s e :
  cache_ok self s → entry self = OK e → cache_ok self (set_entry e s).
Proof.
  intros (He & Hd & Hp) Hentry. split_and!; [|done..].
  simpl. by intros ? [= <-].
Qed.

Lemma cache_ok_set_dependencies s d :
  cache_ok self s → dependencies self = OK d →
  cache_ok self (set_dependencies d s).
Proof.
  intros (He & Hd & Hp) Hdeps. split_and!; [done| |done].
  simpl. by intros ? [= <-].
Qed.

Lemma cache_ok_set_package_json s p :
  cache_ok self s → package_json self = OK p →
  cache_ok self (set_package_json p s).
Proof.
  intros (He & Hd & Hp) Hpj. split_and!; [done..|].
  simpl. by intros ? [= <-].
Qed.

Lemma cache_ok_set_heap s h : cache_ok self s → cache_ok self (set_heap h s).
Proof. by intros (He & Hd & Hp). Qed.

Lemma self_entry_run s :
  cache_ok self s →
  ∃ s', self_entry self s = (entry self, s') ∧ cache_ok self s' ∧
        heap s' = heap s.
Proof.
  intros Hok. pose proof Hok as (He & Hd & Hp).
  unfold self_entry, cached, lift.
  destruct (_entry s) as [e|] eqn:Hcache.
  - exists s. by rewrite (He e eq_refl).
  - destruct (entry self) as [e|x] eqn:Hentry.
    + exists (set_entry e s). split_and!; [done| |done].
      by apply cache_ok_set_entry.
    + by exists s.
Qed.

Lemma self_dependencies_run s :
  cache_ok self s →
  ∃ s', self_dependencies self s = (dependencies self, s') ∧ cache_ok self s' ∧
        heap s' = heap s.
Proof.
  intros Hok. pose proof Hok as (He & Hd & Hp).
  unfold self_dependencies, cached, lift.
  destruct (_dependencies s) as [d|] eqn:Hcache.
  - exists s. by rewrite (Hd d eq_refl).
  - destruct (dependencies self) as [d|x] eqn:Hdeps.
    + exists (set_dependencies d s). split_and!; [done| |done].
      by apply cache_ok_set_dependencies.
    + by exists s.
Qed.

Lemma self_package_json_run s :
  cache_ok self s →
  ∃ s', self_package_json self s = (package_json self, s') ∧ cache_ok self s' ∧
        heap s' = heap s.
Proof.
  intros Hok. pose proof Hok as (He & Hd & Hp).
  unfold self_package_json, cached.
  destruct (_package_json s) as [p|] eqn:Hcache.
  - exists s. by rewrite (Hp p eq_refl).
  - rewrite bind_run.
    destruct (self_dependencies_run s Hok) as (s1 & -> & Hok1 & Hheap1).
    unfold package_json.
    destruct (dependencies self) as [d|x] eqn:Hdeps; simpl; [|by exists s1].
    unfold lift. pose proof Hok1 as (He1 & Hd1 & Hp1).
    destruct (merge_deps (package_json_source self) d) as [p|x] eqn:Hmerge.
    + exists (set_package_json p s1). split_and!; [done| |done].
      apply cache_ok_set_package_json; [done|].
      unfold package_json. by rewrite Hdeps.
    + by exists s1.
Qed.

Lemma alter_present {V} (f : V → V) (h : gmap loc V) l d :
  h !! l = Some d → alter f l h = <[l := f d]> h.
Proof.
  intros Hl. apply map_eq. intros l'. destruct (decide (l = l')) as [<-|].
  - by rewrite lookup_alter_eq, lookup_insert_eq, Hl.
  - by rewrite lookup_alter_ne, lookup_insert_ne.
Qed.

(** The part of [config] after the dictionary object is known. *)
Lemma config_update_run s l d :
  cache_ok self s → heap s !! l = Some d →
  ∃ s', cache_ok self s' ∧
    match updated_config is_file self d with
    | OK d' =>
        (entry ← self_entry self;
         aliases ← lift (aliases self);
         copy ← lift (copy is_file self);
         _ ← dict_update l [("entry", ConfigMap entry);
                            ("aliases", ConfigMap aliases);
                            ("copy", ConfigCopy copy)];
         mret l) s = (OK l, s') ∧
        heap s' = <[l := d']> (heap s)
    | Raise x =>
        (entry ← self_entry self;
         aliases ← lift (aliases self);
         copy ← lift (copy is_file self);
         _ ← dict_update l [("entry", ConfigMap entry);
                            ("aliases", ConfigMap aliases);
                            ("copy", ConfigCopy copy)];
         mret l) s = (Raise x, s') ∧
        heap s' = heap s
    end.
Proof.
  intros Hok Hl. rewrite bind_run. unfold updated_config.
  destruct (self_entry_run s Hok) as (s1 & -> & Hok1 & Hheap1).
  destruct (entry self) as [e|x]; simpl; [|by exists s1].
  rewrite bind_run. unfold lift at 1.
  destruct (aliases self) as [a|x]; simpl; [|by exists s1].
  rewrite bind_run. unfold lift at 1.
  destruct (copy is_file self) as [c|x]; simpl; [|by exists s1].
  rewrite bind_run. unfold dict_update, mret, M_ret.
  exists (set_heap (alter (λ d, update d (config_items e a c)) l (heap s1)) s1).
  split_and!; [|done|].
  - by apply cache_ok_set_heap.
  - change (alter (λ d, update d (config_items e a c)) l (heap s1)
            = <[l := update d (config_items e a c)]> (heap s)).
    rewrite Hheap1.
    exact (alter_present (λ d, update d (config_items e a c)) _ _ _ Hl).
Qed.

Lemma config_run_ref s l d :
  cache_ok self s → _config self = Some (ConfigRef l) → heap s !! l = Some d →
  ∃ s', cache_ok self s' ∧
    match updated_config is_file self d with
    | OK d' => config is_file self s = (OK l, s') ∧ heap s' = <[l := d']> (heap s)
    | Raise x => config is_file self s = (Raise x, s') ∧ heap s' = heap s
    end.
Proof.
  intros Hok Hconfig Hl. unfold config. rewrite bind_run, Hconfig. simpl.
  by apply config_update_run.
Qed.

Lemma config_run_callable s f :
  cache_ok self s → _config self = Some (ConfigCallable f) →
  ∃ s', cache_ok self s' ∧
    match updated_config is_file self (f tt) with
    | OK d' =>
        config is_file self s = (OK (fresh (dom (heap s))), s') ∧
        heap s' !! fresh (dom (heap s)) = Some d'
    | Raise x => config is_file self s = (Raise x, s')
    end.
Proof.
  intros Hok Hconfig. unfold config. rewrite bind_run, Hconfig. simpl.
  set (l := fresh (dom (heap s))).
  set (s0 := set_heap (<[l := f tt]> (heap s)) s).
  destruct (config_update_run s0 l (f tt)) as (s' & Hok' & Hrun).
  { by apply cache_ok_set_heap. }
  { simpl. by rewrite lookup_insert_eq. }
  exists s'. split; [done|].
  destruct (updated_config is_file self (f tt)) as [d'|x].
  - destruct Hrun as [-> ->]. split; [done|]. by rewrite lookup_insert_eq.
  - by destruct Hrun as [-> _].
Qed.

Lemma update_idempotent {V} (d : gmap string V) items :
  update (update d items) items = update d items.
Proof.
  apply map_eq. intros k. rewrite (update_lookup (update d items)).
  rewrite (update_lookup d). by destruct (update ∅ items !! k).
Qed.

Lemma updated_config_idempotent d d' :
  updated_config is_file self d = OK d' →
  updated_config is_file self d' = OK d'.
Proof.
  unfold updated_config.
  destruct (entry self) as [e|]; [|done].
  destruct (aliases self) as [a|]; [|done].
  destruct (copy is_file self) as [c|]; [|done].
  cbv [mbind result_bind rbind]. intros Hd'.
  replace d' with (update d (config_items e a c)) by congruence.
  by rewrite update_idempotent.
Qed.

Lemma updated_config_Raise d d' x :
  updated_config is_file self d = Raise x →
  updated_config is_file self d' = Raise x.
Proof.
  unfold updated_config.
  destruct (entry self) as [e|]; simpl; [|done].
  destruct (aliases self) as [a|]; simpl; [|done].
  by destruct (copy is_file self) as [c|].
Qed.

(** The description read with a dictionary object; reading it again from
    the dictionary left behind gives the same. *)
Lemma read_descriptor_ref s l d :
  cache_ok self s → _config self = Some (ConfigRef l) → heap s !! l = Some d →
  ∃ s' d1, read_descriptor is_file self s = (descriptor_for is_file self d, s') ∧
           cache_ok self s' ∧ heap s' !! l = Some d1 ∧
           descriptor_for is_file self d1 = descriptor_for is_file self d.
Proof.
  intros Hok Hconfig Hl. unfold read_descriptor, descriptor_for. rewrite bind_run.
  destruct (config_run_ref s l d Hok Hconfig Hl) as (s1 & Hok1 & Hrun).
  destruct (updated_config is_file self d) as [d'|x] eqn:Hupd.
  - destruct Hrun as [-> Hheap1]. rewrite bind_run. unfold deref at 1.
    rewrite Hheap1, lookup_insert_eq. simpl. rewrite bind_run.
    destruct (self_package_json_run s1 Hok1) as (s2 & -> & Hok2 & Hheap2).
    exists s2, d'. rewrite Hheap2, Hheap1, lookup_insert_eq.
    rewrite (updated_config_idempotent d d' Hupd). simpl.
    by destruct (package_json self).
  - destruct Hrun as [-> Hheap1]. exists s1, d. rewrite Hheap1, Hupd. done.
Qed.

Lemma read_descriptor_callable s f :
  cache_ok self s → _config self = Some (ConfigCallable f) →
  ∃ s', read_descriptor is_file self s = (descriptor_for is_file self (f tt), s') ∧
        cache_ok self s'.
Proof.
  intros Hok Hconfig. unfold read_descriptor, descriptor_for. rewrite bind_run.
  destruct (config_run_callable s f Hok Hconfig) as (s1 & Hok1 & Hrun).
  destruct (updated_config is_file self (f tt)) as [d'|x] eqn:Hupd.
  - destruct Hrun as [-> Hheap1]. rewrite bind_run. unfold deref at 1.
    rewrite Hheap1. simpl. rewrite bind_run.
    destruct (self_package_json_run s1 Hok1) as (s2 & -> & Hok2 & Hheap2).
    exists s2. simpl. by destruct (package_json self).
  - rewrite Hrun. by exists s1.
Qed.
End store_facts.

Section init_facts.
Context {J : Type}.
Import WebpackBundleProject.

(** After [__init__] nothing is cached, and the config is a callable or a
    dictionary that exists. *)
Lemma init_store project_path bundles config config_path package_json_source
    allowed_copy_paths (h : gmap loc (config_dict J)) self s0 :
  __init__ project_path bundles config config_path package_json_source
           allowed_copy_paths h = (self, s0) →
  cache_ok self s0 ∧
  ((∃ l d, _config self = Some (ConfigRef l) ∧ heap s0 !! l = Some d) ∨
   (∃ f, _config self = Some (ConfigCallable f))).
Proof.
  unfold __init__.
  set (fresh_config := (Some (ConfigRef (fresh (dom h))), <[fresh (dom h) := ∅]> h)).
  assert (fresh_config.2 !! fresh (dom h) = Some ∅) as Hfresh
    by apply lookup_insert_eq.
  destruct config as [[l|f]|].
  - destruct (h !! l) as [d|] eqn:Hl.
    + destruct (bool_decide (dom d ≠ ∅)); intros [= <- <-]; (split; [done|]);
        left; eauto.
    + intros [= <- <-]. split; [done|]. left; eauto.
  - intros [= <- <-]. split; [done|]. right; eauto.
  - intros [= <- <-]. split; [done|]. left; eauto.
Qed.

(** A plain dictionary that is not empty is kept as the config. *)
Lemma init_keeps_dict project_path bundles l config_path package_json_source
    allowed_copy_paths (h : gmap loc (config_dict J)) d self s0 :
  h !! l = Some d → dom d ≠ ∅ →
  __init__ project_path bundles (Some (ConfigRef l)) config_path
           package_json_source allowed_copy_paths h = (self, s0) →
  _config self = Some (ConfigRef l) ∧ heap s0 = h ∧ cache_ok self s0.
Proof.
  intros Hl Hd. unfold __init__. rewrite Hl.
  rewrite (bool_decide_eq_true_2 _ Hd). by intros [= <- <-].
Qed.
End init_facts.

Section store_claims.
Context {J : Type}.
Variable is_file : Path → bool.
Import WebpackBundleProject.

(** C10: on a project just made by [__init__], whatever its arguments and
    the answers of the file system, reading the project description and then
    reading it again from the store the first reading leaves gives the same
    result: the same config contents and package manifest, or the same
    exception. *)
Theorem read_descriptor_twice project_path bundles config config_path
    package_json_source allowed_copy_paths (h : gmap loc (config_dict J)) :
  let init := __init__ project_path bundles config config_path
                       package_json_source allowed_copy_paths h in
  let first := read_descriptor is_file init.1 init.2 in
  let second := read_descriptor is_file init.1 first.2 in
  second.1 = first.1.
Proof.
  destruct (__init__ project_path bundles config config_path
                     package_json_source allowed_copy_paths h)
    as [self s0] eqn:Hinit.
  simpl. apply init_store in Hinit as [Hok [(l & d & Hconfig & Hl)|[f Hconfig]]].
  - destruct (read_descriptor_ref is_file self s0 l d Hok Hconfig Hl)
      as (s1 & d1 & -> & Hok1 & Hl1 & Hsame). simpl.
    destruct (read_descriptor_ref is_file self s1 l d1 Hok1 Hconfig Hl1)
      as (s2 & d2 & -> & _). simpl. done.
  - destruct (read_descriptor_callable is_file self s0 f Hok Hconfig)
      as (s1 & -> & Hok1). simpl.
    destruct (read_descriptor_callable is_file self s1 f Hok1 Hconfig)
      as (s2 & -> & _). done.
Qed.

(** C5, amended: the caller supplies a plain config dictionary and
    reading [config] returns.  When the dictionary is not empty, the result
    is the caller's own dictionary object, and that object now holds the
    caller's items with the keys [entry], [aliases] and [copy] inserted or
    overwritten; every other object of the heap is as it was.  When it is
    empty, [__init__] has put a new dictionary in its place ([config or
    {}]): the result is that new object, which holds the three keys, and
    the caller's dictionary, like every object of the caller's heap, is as it
    was. *)
Theorem config_updates_dict_unless_empty project_path bundles config_path
    package_json_source allowed_copy_paths (h : gmap loc (config_dict J))
    l d self s0 l' s' :
  h !! l = Some d →
  __init__ project_path bundles (Some (ConfigRef l)) config_path
           package_json_source allowed_copy_paths h = (self, s0) →
  config is_file self s0 = (OK l', s') →
  ∃ e a c,
    entry self = OK e ∧ aliases self = OK a ∧ copy is_file self = OK c ∧
    if bool_decide (dom d ≠ ∅)
    then l' = l ∧ heap s' = <[l := update d (config_items e a c)]> h
    else l' ≠ l ∧ h !! l' = None ∧ heap s' !! l = Some d ∧
         heap s' = <[l' := update ∅ (config_items e a c)]> h.
Proof.
  intros Hl Hinit Hrun.
  assert (∀ l0 d0, _config self = Some (ConfigRef l0) → cache_ok self s0 →
                   heap s0 !! l0 = Some d0 →
                   l' = l0 ∧
                   ∃ e a c, entry self = OK e ∧ aliases self = OK a ∧
                            copy is_file self = OK c ∧
                            heap s' = <[l0 := update d0 (config_items e a c)]> (heap s0))
    as Hread.
  { intros l0 d0 Hconfig Hok Hl0.
    destruct (config_run_ref is_file self s0 l0 d0 Hok Hconfig Hl0)
      as (s1 & Hok1 & Hspec).
    unfold updated_config in Hspec.
    destruct (entry self) as [e|]; [|destruct Hspec; congruence].
    destruct (aliases self) as [a|]; [|destruct Hspec; congruence].
    destruct (copy is_file self) as [c|]; [|destruct Hspec; congruence].
    cbv [mbind result_bind rbind] in Hspec. destruct Hspec as [Hrun' Hheap'].
    rewrite Hrun in Hrun'. injection Hrun' as -> ->. split; [done|].
    by exists e, a, c. }
  destruct (bool_decide (dom d ≠ ∅)) eqn:Hd.
  - apply bool_decide_eq_true in Hd.
    destruct (init_keeps_dict _ _ _ _ _ _ _ _ _ _ Hl Hd Hinit)
      as (Hconfig & Hheap & Hok).
    rewrite <-Hheap in Hl.
    destruct (Hread l d Hconfig Hok Hl) as (-> & e & a & c & ? & ? & ? & Hheap').
    exists e, a, c. do 3 (split; [done|]). split; [done|].
    by rewrite Hheap', Hheap.
  - assert (_config self = Some (ConfigRef (fresh (dom h))) ∧
            heap s0 = <[fresh (dom h) := ∅]> h ∧ cache_ok self s0)
      as (Hconfig & Hheap & Hok).
    { unfold __init__ in Hinit. rewrite Hl, Hd in Hinit.
      by injection Hinit as <- <-. }
    assert (h !! fresh (dom h) = None) as Hfresh
      by apply not_elem_of_dom, is_fresh.
    destruct (Hread (fresh (dom h)) ∅ Hconfig Hok) as (-> & e & a & c & ? & ? & ? & Hheap').
    { by rewrite Hheap, lookup_insert_eq. }
    exists e, a, c. do 3 (split; [done|]).
    assert (fresh (dom h) ≠ l) as Hne by (intros Heq; congruence).
    split_and!; [done|done| |].
    + by rewrite Hheap', Hheap, !lookup_insert_ne.
    + rewrite Hheap', Hheap. apply insert_insert_eq.
Qed.
End store_claims.

Lemma config_updates_dict_unless_empty_witness :
  (∃ self s0 l' s' e a c,
     WebpackBundleProject.__init__ "/proj" (Some [bundle_a]) (Some (ConfigRef 0%nat))
       None ∅ None (heap_with {["debug" := ConfigJson tt]}) = (self, s0) ∧
     WebpackBundleProject.config config_json_is_file self s0 = (OK l', s') ∧
     l' = 0%nat ∧
     heap s'
     = <[0%nat := update {["debug" := ConfigJson tt]} (config_items e a c)]>
         (heap_with {["debug" := ConfigJson tt]})) ∧
  (∃ self s0 l' s' e a c,
     WebpackBundleProject.__init__ "/proj" (Some [bundle_a]) (Some (ConfigRef 0%nat))
       None ∅ None (heap_with ∅) = (self, s0) ∧
     WebpackBundleProject.config config_json_is_file self s0 = (OK l', s') ∧
     l' ≠ 0%nat ∧ heap s' !! 0%nat = Some ∅ ∧
     heap s' = <[l' := update ∅ (config_items e a c)]> (heap_with ∅)).
Proof.
  split.
  - destruct (WebpackBundleProject.__init__ "/proj" (Some [bundle_a])
                (Some (ConfigRef 0%nat)) None ∅ None
                (heap_with {["debug" := ConfigJson tt]})) as [self s0] eqn:Hinit.
    assert (is_OK (WebpackBundleProject.config config_json_is_file self s0).1 = true)
      as Hok.
    { vm_compute in Hinit. injection Hinit as <- <-. vm_compute. reflexivity. }
    destruct (WebpackBundleProject.config config_json_is_file self s0)
      as [[l'|x] s'] eqn:Hrun; [|discriminate Hok].
    assert (heap_with {["debug" := ConfigJson tt]} !! 0%nat
            = Some ({["debug" := ConfigJson tt]} : config_dict unit)) as Hl
      by apply lookup_insert_eq.
    destruct (config_updates_dict_unless_empty config_json_is_file
                _ _ _ _ _ _ _ _ _ _ _ _ Hl Hinit Hrun)
      as (e & a & c & _ & _ & _ & Hcase).
    rewrite bool_decide_eq_true_2 in Hcase
      by (rewrite dom_singleton_L; apply non_empty_singleton_L).
    exists self, s0, l', s', e, a, c.
    split_and!; [reflexivity|exact Hrun|exact (proj1 Hcase)|exact (proj2 Hcase)].
  - destruct (WebpackBundleProject.__init__ "/proj" (Some [bundle_a])
                (Some (ConfigRef 0%nat)) None ∅ None (heap_with ∅))
      as [self s0] eqn:Hinit.
    assert (is_OK (WebpackBundleProject.config config_json_is_file self s0).1 = true)
      as Hok.
    { vm_compute in Hinit. injection Hinit as <- <-. vm_compute. reflexivity. }
    destruct (WebpackBundleProject.config config_json_is_file self s0)
      as [[l'|x] s'] eqn:Hrun; [|discriminate Hok].
    assert (heap_with ∅ !! 0%nat = Some (∅ : config_dict unit)) as Hl
      by apply lookup_insert_eq.
    destruct (config_updates_dict_unless_empty config_json_is_file
                _ _ _ _ _ _ _ _ _ _ _ _ Hl Hinit Hrun)
      as (e & a & c & _ & _ & _ & Hcase).
    rewrite bool_decide_eq_false_2 in Hcase by (rewrite dom_empty_L; by intros ?).
    destruct Hcase as (Hne & _ & Hkept & Hheap).
    exists self, s0, l', s', e, a, c.
    split_and!; [reflexivity|exact Hrun|exact Hne|exact Hkept|exact Hheap].
Defined.

(** C5, as stated, fails: the caller's dictionary is empty; [__init__]
    replaces it by a new dictionary ([config or {}]), [config] returns that
    one, and the caller's is still empty. *)
Lemma empty_dict_is_not_updated :
  ¬ config_updates_the_callers_dict config_json_is_file "/proj" (Some [bundle_a])
      None (∅ : manifest unit) None (heap_with ∅) 0%nat ∅.
Proof.
  intros Hclaim.
  destruct (WebpackBundleProject.__init__ "/proj" (Some [bundle_a])
              (Some (ConfigRef 0%nat)) None (∅ : manifest unit) None (heap_with ∅))
    as [self s0] eqn:Hinit.
  destruct (WebpackBundleProject.config config_json_is_file self s0)
    as [r s'] eqn:Hrun.
  assert (r = OK 1%nat) as ->.
  { apply (f_equal fst) in Hrun. simpl in Hrun. rewrite <-Hrun.
    vm_compute in Hinit. injection Hinit as <- <-. vm_compute. reflexivity. }
  destruct (Hclaim (lookup_insert_eq _ _ _) self s0 1%nat s' Hinit Hrun) as [Hl _].
  discriminate Hl.
Qed.

(** C4: what the code does at the failing input.  The config file
    [/proj/config.json] exists; the relative allowed path [static] is joined
    to the path of the config file itself, while the paths of the
    instruction are joined to its directory [/proj], so an instruction inside
    [/proj/static] is out of bounds. *)
Lemma relative_root_joined_to_config_file :
  WebpackBundleProject.allowed_copy_paths relative_root_project
  = [Path_of "/proj/config.json/static"] ∧
  joinpath (WebpackBundleProject._get_dir_path config_json_is_file
              (Path_of (WebpackBundleProject.config_path relative_root_project)))
           (Path_of "static")
  = Path_of "/proj/static" ∧
  resolved_dir config_json_is_file relative_root_project "static/js"
  = Path_of "/proj/static/js" ∧
  is_OK (WebpackBundleProject.copy config_json_is_file relative_root_project)
  = false.
Proof. split_and!; vm_compute; reflexivity. Qed.


(** * Further properties of the code *)

Section alias_facts.
Context {J : Type}.
Import WebpackBundleProject.

(** X1: alias aggregation fails exactly when two bundles at different
    places of the list contribute the same alias, whatever the paths; the
    error names the alias, both paths and both bundle paths, the earlier
    contributor first; otherwise the merged map is the union of the bundles'
    alias maps. *)
Theorem aliases_duplicate_or_union (self : t J) :
  (is_OK (aliases self) = false ↔ share_name WebpackBundle.aliases (bundles self)) ∧
  (∀ e, aliases self = Raise e →
     ∃ done b2 rest b1 alias p1 p2,
       bundles self = done ++ b2 :: rest ∧ b1 ∈ done ∧
       (alias, p1) ∈ WebpackBundle.aliases b1 ∧
       (alias, p2) ∈ WebpackBundle.aliases b2 ∧
       e = RuntimeError (DuplicatedAlias alias p1 (WebpackBundle.path b1)
                                         alias p2 (WebpackBundle.path b2))) ∧
  (∀ m, aliases self = OK m →
     ∀ alias p, m !! alias = Some p ↔
                ∃ b, b ∈ bundles self ∧
                     as_map (WebpackBundle.aliases b) !! alias = Some p).
Proof.
  split_and!.
  - apply aggregate_Raise_iff.
  - intros e He.
    pose proof (aggregate_spec DuplicatedAlias WebpackBundle.aliases self) as Hspec.
    unfold aliases in He. by rewrite He in Hspec.
  - intros m Hm.
    pose proof (aggregate_spec DuplicatedAlias WebpackBundle.aliases self) as Hspec.
    unfold aliases in Hm. rewrite Hm in Hspec. by destruct Hspec.
Qed.
End alias_facts.

Section copy_order_facts.
Context {J : Type}.
Variable is_file : Path → bool.
Variable self : WebpackBundleProject.t J.
Import WebpackBundleProject.

Lemma copy_loop_first acc l1 c l2 :
  Forall (λ c, accepts is_file self c = true) l1 →
  accepts is_file self c = false →
  for_each (copy_one is_file (config_dir is_file self) (allowed_copy_paths self))
           acc (l1 ++ c :: l2)
  = Raise (copy_error is_file self c).
Proof.
  intros Hl1 Hc. rewrite for_each_app.
  pose proof (copy_loop is_file self acc l1) as Hloop.
  unfold config_dir.
  destruct (for_each _ acc l1) as [l|e].
  - simpl. rewrite copy_one_accepts, Hc. done.
  - destruct Hloop as (c' & Hc' & Hno & _).
    rewrite Forall_forall in Hl1. rewrite (Hl1 c' Hc') in Hno. done.
Qed.

(** X2: [copy] reports the first instruction it does not accept, in the
    order of the bundle list and then of declaration: when the instructions
    before [c] are all accepted and [c] is not, the exception is the one for
    [c] (invalid instruction when its keys are wrong, out of bounds
    otherwise), whatever comes after. *)
Theorem copy_raises_first_offender l1 c l2 :
  all_copy_instructions self = l1 ++ c :: l2 →
  Forall (λ c, accepts is_file self c = true) l1 →
  accepts is_file self c = false →
  copy is_file self = Raise (copy_error is_file self c).
Proof.
  intros Hall Hl1 Hc. unfold copy. rewrite for_each_bind.
  unfold all_copy_instructions in Hall. rewrite Hall.
  by apply copy_loop_first.
Qed.
End copy_order_facts.

Lemma copy_raises_first_offender_witness :
  WebpackBundleProject.copy config_json_is_file offending_project
  = Raise (RuntimeError
             (InvalidCopyInstruction
                (<["extra" := "x"]> (instruction "/srv/c" "/srv/d")))).
Proof.
  assert (copy_error config_json_is_file offending_project
            (<["extra" := "x"]> (instruction "/srv/c" "/srv/d"))
          = RuntimeError
              (InvalidCopyInstruction
                 (<["extra" := "x"]> (instruction "/srv/c" "/srv/d")))) as <-
    by reflexivity.
  apply (copy_raises_first_offender config_json_is_file offending_project
           [instruction "/srv/a" "/srv/b"] _ [instruction "/etc" "/srv/e"]).
  - reflexivity.
  - repeat constructor.
  - reflexivity.
Defined.

(** ** Paths *)

Lemma is_relative_to_true p q :
  is_relative_to p q = true ↔ root p = root q ∧ parts q `prefix_of` parts p.
Proof.
  unfold is_relative_to. rewrite andb_true_iff, !bool_decide_eq_true. done.
Qed.

Lemma is_relative_to_refl p : is_relative_to p p = true.
Proof. by apply is_relative_to_true. Qed.

Lemma is_relative_to_trans p q r :
  is_relative_to p q = true → is_relative_to q r = true →
  is_relative_to p r = true.
Proof.
  rewrite !is_relative_to_true. intros [Hr1 Hp1] [Hr2 Hp2]. split.
  - congruence.
  - by etrans.
Qed.

Lemma is_absolute_joinpath p q :
  is_absolute (joinpath p q) = is_absolute p || is_absolute q.
Proof.
  unfold joinpath. destruct (is_absolute q) eqn:Hq.
  - by rewrite Hq, orb_true_r.
  - by rewrite orb_false_r.
Qed.

Lemma joinpath_relative p q :
  is_absolute q = false → is_relative_to (joinpath p q) p = true.
Proof.
  intros Hq. unfold joinpath. rewrite Hq. apply is_relative_to_true.
  split; [done|]. simpl. by apply prefix_app_r.
Qed.

Lemma parent_joinpath_relative p q :
  is_absolute q = false → parts q ≠ [] →
  is_relative_to (parent (joinpath p q)) p = true.
Proof.
  intros Hq Hparts. unfold joinpath. rewrite Hq. unfold parent. simpl.
  destruct (parts p ++ parts q) as [|x l] eqn:Happ.
  - by apply app_eq_nil in Happ as [_ ?].
  - apply is_relative_to_true. split; [done|].
    change (parts p `prefix_of` removelast (x :: l)). rewrite <-Happ.
    rewrite removelast_app by done. by apply prefix_app_r.
Qed.

Section sandbox_facts.
Context {J : Type}.
Variable is_file : Path → bool.
Variable self : WebpackBundleProject.t J.
Import WebpackBundleProject.

(** X3: the allowed paths are absolute whenever the config path is:
    absolute paths are taken as given, relative ones are joined to the
    config path. *)
Theorem allowed_copy_paths_absolute :
  is_absolute (Path_of (config_path self)) = true →
  Forall (λ ap, is_absolute ap = true) (allowed_copy_paths self).
Proof.
  intros Habs. unfold allowed_copy_paths. apply Forall_forall.
  intros ap Hap. apply list_elem_of_In, in_map_iff in Hap as (p & <- & _).
  destruct (is_absolute (Path_of p)) eqn:Hp; simpl; [done|].
  by rewrite is_absolute_joinpath, Habs.
Qed.

Lemma existsb_covered_by p allowed allowed' :
  covered_by allowed allowed' →
  existsb (is_relative_to p) allowed = true →
  existsb (is_relative_to p) allowed' = true.
Proof.
  intros Hcov. rewrite !existsb_exists.
  intros (ap & Hap%list_elem_of_In & Hrel).
  destruct (Hcov ap Hap) as (ap' & Hap' & Hrel').
  exists ap'. split; [by apply list_elem_of_In|].
  by eapply is_relative_to_trans.
Qed.

Lemma accepts_covered_by paths paths' c :
  allowed_copy_paths (with_allowed self paths) ≠ [] →
  covered_by (allowed_copy_paths (with_allowed self paths))
             (allowed_copy_paths (with_allowed self paths')) →
  accepts is_file (with_allowed self paths) c = true →
  accepts is_file (with_allowed self paths') c = true.
Proof.
  intros Hne Hcov. unfold accepts.
  rewrite !andb_true_iff, !orb_true_iff. intros [Hwf [Hnil|Hin]].
  - by apply bool_decide_eq_true in Hnil.
  - split; [done|]. right.
    destruct (c !! "from") as [from|]; [|done].
    destruct (c !! "to") as [to|]; [|done].
    apply andb_true_iff in Hin as [Hfrom Hto]. apply andb_true_iff.
    split; by eapply existsb_covered_by.
Qed.

(** X4: widening the sandbox never rejects what was accepted: when every
    allowed path of a non-empty list is, or lies below, a path of a second
    list, a bundle list that passes [copy] under the first list passes under
    the second with the same result. *)
Theorem copy_wider_sandbox paths paths' l :
  allowed_copy_paths (with_allowed self paths) ≠ [] →
  covered_by (allowed_copy_paths (with_allowed self paths))
             (allowed_copy_paths (with_allowed self paths')) →
  copy is_file (with_allowed self paths) = OK l →
  copy is_file (with_allowed self paths') = OK l.
Proof.
  intros Hne Hcov Hl.
  pose proof (copy_spec is_file (with_allowed self paths)) as Hspec.
  pose proof (copy_spec is_file (with_allowed self paths')) as Hspec'.
  rewrite Hl in Hspec. destruct Hspec as [-> Hall].
  rewrite Forall_forall in Hall.
  destruct (copy is_file (with_allowed self paths')) as [l'|e].
  - by destruct Hspec' as [-> _].
  - destruct Hspec' as (c & Hc & Hno & _).
    apply (Hall c) in Hc. apply (accepts_covered_by paths paths') in Hc; [|done..].
    congruence.
Qed.

Lemma resolved_dir_relative p :
  is_absolute (Path_of p) = false → parts (Path_of p) ≠ [] →
  is_relative_to (resolved_dir is_file self p) (config_dir is_file self) = true.
Proof.
  intros Hrel Hparts. unfold resolved_dir. fold (config_dir is_file self).
  unfold _get_dir_path at 1. destruct (is_file _).
  - by apply parent_joinpath_relative.
  - by apply joinpath_relative.
Qed.

(** X5: when the directory of the config file is among the allowed paths,
    every instruction whose two paths are relative and not empty is accepted,
    [..] segments or not: the paths are joined to that directory and compared
    segment by segment as written. *)
Theorem copy_accepts_relative_instructions :
  config_dir is_file self ∈ allowed_copy_paths self →
  Forall relative_instruction (all_copy_instructions self) →
  copy is_file self = OK (all_copy_instructions self).
Proof.
  intros Hdir Hall. pose proof (copy_spec is_file self) as Hspec.
  destruct (copy is_file self) as [l|e]; [by destruct Hspec as [-> _]|].
  destruct Hspec as (c & Hc & Hno & _). rewrite Forall_forall in Hall.
  destruct (Hall c Hc) as [Hwf Hrel]. exfalso.
  unfold accepts in Hno. rewrite (bool_decide_eq_true_2 _ Hwf) in Hno.
  assert (is_Some (c !! "from")) as [from Hfrom].
  { apply elem_of_dom. rewrite Hwf. set_solver. }
  assert (is_Some (c !! "to")) as [to Hto].
  { apply elem_of_dom. rewrite Hwf. set_solver. }
  rewrite Hfrom, Hto in Hno. simpl in Hno.
  assert (∀ p, is_absolute (Path_of p) = false → parts (Path_of p) ≠ [] →
               existsb (is_relative_to (resolved_dir is_file self p))
                       (allowed_copy_paths self) = true) as Hin.
  { intros p ? ?. apply existsb_exists. exists (config_dir is_file self).
    split; [by apply list_elem_of_In|by apply resolved_dir_relative]. }
  destruct (Hrel "from" from Hfrom) as [? ?], (Hrel "to" to Hto) as [? ?].
  rewrite !Hin in Hno by done. by rewrite orb_true_r in Hno.
Qed.
End sandbox_facts.

Lemma allowed_copy_paths_absolute_witness :
  is_absolute (Path_of (WebpackBundleProject.config_path relative_root_project)) = true ∧
  Forall (λ ap, is_absolute ap = true)
         (WebpackBundleProject.allowed_copy_paths relative_root_project).
Proof.
  assert (is_absolute
            (Path_of (WebpackBundleProject.config_path relative_root_project))
          = true) as Habs by reflexivity.
  split; [exact Habs|].
  exact (allowed_copy_paths_absolute relative_root_project Habs).
Defined.

Lemma copy_wider_sandbox_witness :
  WebpackBundleProject.copy config_json_is_file
    (with_allowed nested_project (Plain ["/srv"]))
  = OK [instruction "/srv/static/js" "/srv/static/css"].
Proof.
  apply (copy_wider_sandbox config_json_is_file nested_project
           (Plain ["/srv/static"]) (Plain ["/srv"])).
  - by vm_compute.
  - intros ap Hap. exists (Path_of "/srv"). split; [left|].
    apply list_elem_of_singleton in Hap as ->. reflexivity.
  - by vm_compute.
Defined.

Lemma copy_accepts_relative_instructions_witness :
  WebpackBundleProject.copy config_json_is_file climbing_project
  = OK [instruction "../../etc/passwd" "static"].
Proof.
  apply (copy_accepts_relative_instructions config_json_is_file climbing_project).
  - left.
  - constructor; [|constructor]. split; [reflexivity|].
    intros key p Hp. unfold instruction in Hp.
    apply lookup_insert_Some in Hp as [[_ <-]|[_ Hp]]; [by vm_compute|].
    apply lookup_insert_Some in Hp as [[_ <-]|[_ Hp]]; [by vm_compute|done].
Defined.

(** ** Reading [config] *)

Section config_facts.
Context {J : Type}.
Variable is_file : Path → bool.
Import WebpackBundleProject.








(** X9: with a plain, non-empty config dictionary, a second read of
    [config] returns the same object and changes nothing in the heap: the
    update writes the values that are already there. *)
Theorem config_second_read_changes_nothing project_path bundles config_path
    package_json_source allowed_copy_paths (h : gmap loc (config_dict J))
    l d self s0 l1 s1 r2 s2 :
  h !! l = Some d → dom d ≠ ∅ →
  __init__ project_path bundles (Some (ConfigRef l)) config_path
           package_json_source allowed_copy_paths h = (self, s0) →
  WebpackBundleProject.config is_file self s0 = (OK l1, s1) →
  WebpackBundleProject.config is_file self s1 = (r2, s2) →
  r2 = OK l1 ∧ heap s2 = heap s1.
Proof.
  intros Hl Hd Hinit Hrun1 Hrun2.
  destruct (init_keeps_dict _ _ _ _ _ _ _ _ _ _ Hl Hd Hinit)
    as (Hconfig & Hheap0 & Hok).
  rewrite <-Hheap0 in Hl.
  destruct (config_run_ref is_file self s0 l d Hok Hconfig Hl)
    as (s1' & Hok1 & Hspec1).
  destruct (updated_config is_file self d) as [d'|x] eqn:Hupd;
    destruct Hspec1 as [Hr1 Hheap1]; rewrite Hr1 in Hrun1; [|done].
  injection Hrun1 as <- <-.
  assert (heap s1' !! l = Some d') as Hl1 by (by rewrite Hheap1, lookup_insert_eq).
  destruct (config_run_ref is_file self s1' l d' Hok1 Hconfig Hl1)
    as (s2' & Hok2 & Hspec2).
  rewrite (updated_config_idempotent is_file self d d' Hupd) in Hspec2.
  destruct Hspec2 as [Hr2 Hheap2]. rewrite Hr2 in Hrun2. injection Hrun2 as <- <-.
  split; [done|]. rewrite Hheap2. by apply insert_id.
Qed.
End config_facts.



Lemma config_second_read_changes_nothing_witness :
  ∃ self s0 l1 s1 r2 s2,
    WebpackBundleProject.__init__ "/proj" (Some [bundle_a]) (Some (ConfigRef 0%nat))
      None ∅ None debug_heap = (self, s0) ∧
    WebpackBundleProject.config config_json_is_file self s0 = (OK l1, s1) ∧
    WebpackBundleProject.config config_json_is_file self s1 = (r2, s2) ∧
    r2 = OK l1 ∧ heap s2 = heap s1.
Proof.
  destruct (WebpackBundleProject.__init__ "/proj" (Some [bundle_a])
              (Some (ConfigRef 0%nat)) None ∅ None debug_heap)
    as [self s0] eqn:Hinit.
  assert (is_OK (WebpackBundleProject.config config_json_is_file self s0).1 = true)
    as Hok1.
  { vm_compute in Hinit. injection Hinit as <- <-. vm_compute. reflexivity. }
  destruct (WebpackBundleProject.config config_json_is_file self s0)
    as [[l1|x] s1] eqn:Hrun1; [|discriminate Hok1].
  destruct (WebpackBundleProject.config config_json_is_file self s1)
    as [r2 s2] eqn:Hrun2.
  assert (debug_heap !! 0%nat
          = Some ({["debug" := ConfigJson tt]} : config_dict unit)) as Hl
    by apply lookup_insert_eq.
  assert (dom ({["debug" := ConfigJson tt]} : config_dict unit) ≠ ∅) as Hd.
  { rewrite dom_singleton_L. apply non_empty_singleton_L. }
  destruct (config_second_read_changes_nothing config_json_is_file
              _ _ _ _ _ _ _ _ _ _ _ _ _ _ Hl Hd Hinit Hrun1 Hrun2) as [Hr Hheap].
  exists self, s0, l1, s1, r2, s2.
  split_and!; [reflexivity|exact Hrun1|exact Hrun2|exact Hr|exact Hheap].
Defined.

(** ** Which duplicate is reported *)

(** A decidable proposition about concrete data, settled by evaluation. *)
Ltac by_computation :=
  match goal with
  | |- ?P => refine (@bool_decide_unpack P _ _); vm_compute; exact I
  end.

Section blame_facts.
Context {J : Type}.
Variable error : string → string → string → string → string → string → runtime_message.
Variable items : WebpackBundle.t J → dict.
Import WebpackBundleProject.

Lemma aggregate_prefix_OK (self : t J) done :
  done `prefix_of` bundles self →
  NoDup (contributed_names items done) →
  ∃ st, for_each (aggregate_bundle error items) (∅, ∅) done = OK st ∧
        aggregate_invariant items done st.
Proof.
  intros Hpre Hnd.
  destruct (for_each (aggregate_bundle error items) (∅, ∅) done) as [st|e] eqn:Hloop.
  - exists st. split; [done|].
    eapply (for_each_invariant _ (aggregate_invariant items) _ done);
      [apply aggregate_invariant_init| |reflexivity|done].
    intros. by eapply aggregate_bundle_OK.
  - exfalso. pose proof (aggregate_spec error items (with_bundles self done)) as Hspec.
    unfold aggregate in Hspec. simpl in Hspec. rewrite Hloop in Hspec.
    simpl in Hspec.
    destruct Hspec as (d & b2 & rest & b1 & name & f1 & f2 & -> & ? & ? & ? & _).
    revert Hnd. apply share_name_dup.
    apply (share_name_split _ _ _ _ b1 name); [done|..];
      apply list_elem_of_fmap; by eexists (_, _).
Qed.

Lemma aggregate_first_duplicate (self : t J) done b2 rest l1 name f2 l2 :
  bundles self = done ++ b2 :: rest →
  NoDup (contributed_names items done) →
  items b2 = l1 ++ (name, f2) :: l2 →
  (∀ it, it ∈ l1 → it.1 ∉ contributed_names items done) →
  name ∈ contributed_names items done →
  ∃ b1 f1, b1 ∈ done ∧ (name, f1) ∈ items b1 ∧
    aggregate self error items
    = Raise (RuntimeError (error name f1 (WebpackBundle.path b1)
                                 name f2 (WebpackBundle.path b2))).
Proof.
  intros Hbs Hnd Hitems Hl1 Hname.
  destruct (aggregate_prefix_OK self done) as (st & Hdone & Hinv);
    [rewrite Hbs; by eexists|done|].
  apply (entries_contributed items done st name Hinv) in Hname as Hsome.
  pose proof Hinv as (_ & _ & Hpaths).
  destruct (Hpaths name Hsome) as (b1 & f1 & Hb1 & Hf1 & Hprev).
  exists b1, f1. split_and!; [done..|].
  assert (aggregate_bundle error items st b2
          = Raise (RuntimeError (error name f1 (WebpackBundle.path b1)
                                       name f2 (WebpackBundle.path b2)))) as Hb2.
  { unfold aggregate_bundle. rewrite Hitems, for_each_app.
    pose proof (aggregate_item_loop error st.1 b2 l1 st.2) as Hloop.
    destruct (for_each (aggregate_item error st.1 b2) st.2 l1) as [paths'|e].
    - destruct Hloop as [Hfree ->]. simpl.
      rewrite aggregate_item_taken by done. simpl.
      rewrite update_lookup.
      destruct (update ∅ _ !! name) as [[f bp]|] eqn:Hnew; simpl.
      + exfalso. apply update_empty_elem, list_elem_of_fmap in Hnew
          as (it & [= -> _ _] & Hit).
        apply (Hl1 it Hit). by apply (entries_contributed items done st).
      + by rewrite Hprev.
    - exfalso. destruct Hloop as (it & Hit & Hin & _).
      apply (Hl1 it Hit). by apply (entries_contributed items done st). }
  unfold aggregate. rewrite Hbs, for_each_app, Hdone. simpl. by rewrite Hb2.
Qed.
End blame_facts.

(** X10: [entry] reports the first duplicate it meets: when the bundles
    before [b2] share no entry name and [name] is the first name of [b2], in
    the order of its dictionary, that a bundle before it contributes, the
    error is the one for [name], with the path [b2] gives it and [b2] as the
    second bundle, whatever duplicates later names and later bundles hold. *)
Theorem entry_raises_first_duplicate {J} (self : WebpackBundleProject.t J)
    done b2 rest l1 name f2 l2 :
  WebpackBundleProject.bundles self = done ++ b2 :: rest →
  NoDup (contributed_names WebpackBundle.entry done) →
  WebpackBundle.entry b2 = l1 ++ (name, f2) :: l2 →
  (∀ it, it ∈ l1 → it.1 ∉ contributed_names WebpackBundle.entry done) →
  name ∈ contributed_names WebpackBundle.entry done →
  ∃ b1 f1, b1 ∈ done ∧ (name, f1) ∈ WebpackBundle.entry b1 ∧
    WebpackBundleProject.entry self
    = Raise (RuntimeError (DuplicatedEntry name f1 (WebpackBundle.path b1)
                                           name f2 (WebpackBundle.path b2))).
Proof. apply aggregate_first_duplicate. Qed.

Lemma entry_raises_first_duplicate_witness :
  ∃ (b1 : WebpackBundle.t unit) f1,
    WebpackBundleProject.entry blame_project
    = Raise (RuntimeError (DuplicatedEntry "main" f1 (WebpackBundle.path b1)
                                           "main" "./b.js" "/bundles/b")).
Proof.
  destruct (entry_raises_first_duplicate blame_project
              [WebpackBundle.mk "/bundles/a"
                 [("app", "./app.js"); ("main", "./a.js")] [] [] ∅]
              (WebpackBundle.mk "/bundles/b"
                 [("extra", "./e.js"); ("main", "./b.js")] [] [] ∅)
              [WebpackBundle.mk "/bundles/c" [("app", "./c.js")] [] [] ∅]
              [("extra", "./e.js")] "main" "./b.js" [])
    as (b1 & f1 & _ & _ & Hentry).
  - reflexivity.
  - by_computation.
  - reflexivity.
  - intros it ->%list_elem_of_singleton. by_computation.
  - by_computation.
  - by exists b1, f1.
Defined.

(** ** The config path *)

Section path_strings.
Local Open Scope string_scope.

(** [str.split] never returns an empty list. *)
Lemma split_sep_cons s : ∃ seg rest, split_sep s = seg :: rest.
Proof.
  induction s as [|c s (seg & rest & IH)]; simpl; [by eexists _, _|].
  destruct (Ascii.eqb c "/"); [by eexists _, _|]. rewrite IH. by eexists _, _.
Qed.

Lemma split_sep_app_sep x y :
  split_sep (x ++ "/" ++ y) = (split_sep x ++ split_sep y)%list.
Proof.
  induction x as [|c x IH]; simpl; [done|].
  destruct (Ascii.eqb c "/"); [by rewrite IH|].
  rewrite IH. by destruct (split_sep_cons x) as (seg & rest & ->).
Qed.

Lemma string_app_assoc (x y z : string) : (x ++ y) ++ z = x ++ y ++ z.
Proof.
  induction x as [|c x IH]; [done|].
  change (String c ((x ++ y) ++ z) = String c (x ++ y ++ z)). by rewrite IH.
Qed.

Lemma endswith_sep_app x : endswith_sep x = true → ∃ x', x = x' ++ "/".
Proof.
  induction x as [|c x IH]; simpl; [done|].
  destruct x as [|c' x].
  - intros ->%Ascii.eqb_eq. by exists "".
  - intros (x' & ->)%IH. by exists (String c x').
Qed.

Lemma filter_split_sep_app x y :
  x = "" ∨ endswith_sep x = true →
  List.filter keep_segment (split_sep (x ++ y))
  = (List.filter keep_segment (split_sep x) ++ List.filter keep_segment (split_sep y))%list.
Proof.
  intros [->|(x' & ->)%endswith_sep_app]; [done|].
  rewrite string_app_assoc, split_sep_app_sep, List.filter_app.
  rewrite (split_sep_app_sep x' "" : split_sep (x' ++ "/") = _), List.filter_app.
  simpl. by rewrite app_nil_r.
Qed.

Lemma splitroot_other c r : c ≠ "/"%char → splitroot (String c r) = ("", String c r).
Proof.
  intros Hc. destruct c as [[] [] [] [] [] [] [] []]; try reflexivity. done.
Qed.

Lemma splitroot_one c r :
  c ≠ "/"%char → splitroot (String "/" (String c r)) = ("/", String c r).
Proof.
  intros Hc. destruct c as [[] [] [] [] [] [] [] []]; try reflexivity. done.
Qed.

Lemma splitroot_two c r :
  c ≠ "/"%char →
  splitroot (String "/" (String "/" (String c r))) = ("//", String c r).
Proof.
  intros Hc. destruct c as [[] [] [] [] [] [] [] []]; try reflexivity. done.
Qed.

Lemma startswith_sep_false s :
  startswith_sep s = false → s = "" ∨ ∃ c r, s = String c r ∧ c ≠ "/"%char.
Proof.
  destruct s as [|c r]; [by left|]. simpl. intros Hc%Ascii.eqb_neq. right. eauto.
Qed.

Lemma splitroot_relative s : startswith_sep s = false → splitroot s = ("", s).
Proof.
  intros [->|(c & r & -> & Hc)]%startswith_sep_false; [done|].
  by apply splitroot_other.
Qed.

Lemma splitroot_absolute s : startswith_sep s = true → (splitroot s).1 ≠ "".
Proof.
  destruct s as [|c r]; [done|]. cbn [startswith_sep]. intros ->%Ascii.eqb_eq.
  destruct r as [|c r]; [done|].
  destruct (Ascii.eqb_spec c "/") as [->|Hc]; [|by rewrite splitroot_one].
  destruct r as [|c r]; [done|].
  destruct (Ascii.eqb_spec c "/") as [->|Hc]; [done|by rewrite splitroot_two].
Qed.

Lemma append_cons c (a s : string) : String c a ++ s = String c (a ++ s).
Proof. reflexivity. Qed.

(** Appending a string that does not start with a separator keeps the root. *)
Lemma splitroot_app_relative a s :
  startswith_sep s = false →
  splitroot (a ++ s) = ((splitroot a).1, (splitroot a).2 ++ s).
Proof.
  intros Hs.
  destruct a as [|c1 a]; [exact (splitroot_relative s Hs)|].
  rewrite append_cons.
  destruct (Ascii.eqb_spec c1 "/") as [->|Hc1]; [|by rewrite !splitroot_other].
  destruct a as [|c2 a].
  { apply startswith_sep_false in Hs as [->|(c & r & -> & Hc)]; [done|].
    change ("" ++ String c r) with (String c r). by rewrite splitroot_one. }
  rewrite append_cons.
  destruct (Ascii.eqb_spec c2 "/") as [->|Hc2]; [|by rewrite !splitroot_one].
  destruct a as [|c3 a].
  { apply startswith_sep_false in Hs as [->|(c & r & -> & Hc)]; [done|].
    change ("" ++ String c r) with (String c r). by rewrite splitroot_two. }
  rewrite append_cons.
  destruct (Ascii.eqb_spec c3 "/") as [->|Hc3]; [done|].
  by rewrite !splitroot_two.
Qed.

(** So does appending anything to a path that ends in a segment. *)
Lemma splitroot_app_closed a s :
  a ≠ "" → endswith_sep a = false →
  splitroot (a ++ s) = ((splitroot a).1, (splitroot a).2 ++ s).
Proof.
  intros Ha Hend.
  destruct a as [|c1 a]; [done|]. rewrite append_cons.
  destruct (Ascii.eqb_spec c1 "/") as [->|Hc1]; [|by rewrite !splitroot_other].
  destruct a as [|c2 a]; [done|]. rewrite append_cons.
  destruct (Ascii.eqb_spec c2 "/") as [->|Hc2]; [|by rewrite !splitroot_one].
  destruct a as [|c3 a]; [done|]. rewrite append_cons.
  destruct (Ascii.eqb_spec c3 "/") as [->|Hc3]; [done|].
  by rewrite !splitroot_two.
Qed.

Lemma splitroot_endswith_sep a :
  endswith_sep a = true →
  (splitroot a).2 = "" ∨ endswith_sep (splitroot a).2 = true.
Proof.
  intros Hend.
  destruct a as [|c1 a]; [done|].
  destruct (Ascii.eqb_spec c1 "/") as [->|Hc1]; [|rewrite splitroot_other by done; by right].
  destruct a as [|c2 a]; [by left|].
  destruct (Ascii.eqb_spec c2 "/") as [->|Hc2];
    [|rewrite splitroot_one by done; by right].
  destruct a as [|c3 a]; [by left|].
  destruct (Ascii.eqb_spec c3 "/") as [->|Hc3]; [by right|].
  rewrite splitroot_two by done. by right.
Qed.

Lemma Path_of_relative b :
  startswith_sep b = false →
  Path_of b = mkPath "" (List.filter keep_segment (split_sep b)).
Proof. intros Hb. unfold Path_of. by rewrite splitroot_relative. Qed.

Lemma is_absolute_Path_of b : is_absolute (Path_of b) = startswith_sep b.
Proof.
  destruct (startswith_sep b) eqn:Hb.
  - apply splitroot_absolute in Hb. unfold Path_of, is_absolute.
    destruct (splitroot b) as [r rel]. simpl in *.
    apply negb_true_iff, String.eqb_neq. done.
  - by rewrite Path_of_relative.
Qed.

(** [os.path.join] and [joinpath] agree. *)
Lemma Path_of_join a b : Path_of (join a b) = joinpath (Path_of a) (Path_of b).
Proof.
  unfold join, joinpath. rewrite is_absolute_Path_of.
  destruct (startswith_sep b) eqn:Hb; [done|].
  rewrite (Path_of_relative b Hb). simpl.
  destruct (String.eqb_spec a "") as [->|Ha]; simpl.
  { by rewrite Path_of_relative. }
  destruct (endswith_sep a) eqn:Hend.
  - unfold Path_of. rewrite splitroot_app_relative by done.
    destruct (splitroot_endswith_sep a Hend) as [Hrel|Hrel];
      destruct (splitroot a) as [r rel]; simpl in *;
      by rewrite filter_split_sep_app by auto.
  - unfold Path_of. rewrite splitroot_app_closed by done.
    destruct (splitroot a) as [r rel]. simpl.
    by rewrite split_sep_app_sep, List.filter_app.
Qed.
End path_strings.

Section config_path_facts.
Context {J : Type}.
Variable is_file : Path → bool.
Import WebpackBundleProject.


(** X12: without a configured path ([None] or the empty string) the config
    file is [config.json] in the project path, and the directory the copy
    paths are joined to is the project path only once that file exists:
    until then it is the path of the file itself. *)
Theorem default_config_dir project_path bundles config config_path
    package_json_source allowed_copy_paths (h : gmap loc (config_dict J))
    self s0 :
  config_path = None ∨ config_path = Some "" →
  __init__ project_path bundles config config_path package_json_source
           allowed_copy_paths h = (self, s0) →
  Path_of (WebpackBundleProject.config_path self)
  = joinpath (Path_of project_path) (Path_of "config.json") ∧
  config_dir is_file self
  = if is_file (joinpath (Path_of project_path) (Path_of "config.json"))
    then Path_of project_path
    else joinpath (Path_of project_path) (Path_of "config.json").
Proof.
  intros Hdefault Hinit.
  assert (WebpackBundleProject.project_path self = project_path ∧
          _config_path self = "config.json") as [Hproject Hconfig].
  { unfold __init__ in Hinit.
    destruct (if _ : bool then _ else _) as [c h'] in Hinit.
    injection Hinit as <- _. by destruct Hdefault as [-> | ->]. }
  assert (Path_of (WebpackBundleProject.config_path self)
          = joinpath (Path_of project_path) (Path_of "config.json")) as Hpath.
  { unfold WebpackBundleProject.config_path.
    by rewrite Path_of_join, Hproject, Hconfig. }
  split; [done|]. unfold config_dir, _get_dir_path. rewrite Hpath.
  destruct (is_file _); [|done].
  destruct (Path_of project_path) as [r ps]. unfold joinpath, parent. simpl.
  destruct (ps ++ ["config.json"]) eqn:Happ; [by destruct ps|].
  rewrite <-Happ. by rewrite removelast_last.
Qed.
End config_path_facts.

Lemma default_config_dir_witness :
  ∃ self s0,
    WebpackBundleProject.__init__ "/proj" None None None ∅ None
      (∅ : gmap loc (config_dict unit)) = (self, s0) ∧
    config_dir config_json_is_file self = Path_of "/proj".
Proof.
  destruct (WebpackBundleProject.__init__ "/proj" None None None ∅ None
              (∅ : gmap loc (config_dict unit))) as [self s0] eqn:Hinit.
  exists self, s0. split; [reflexivity|].
  exact (proj2 (default_config_dir config_json_is_file "/proj" None None None ∅
                  None ∅ self s0 (or_introl eq_refl) Hinit)).
Defined.
